(** * StudentLeadBackend: ad scheduling and campaign performance

    A shallow embedding of [src/ad-scheduler.ts] (content generation, the
    scheduling pass, the post execution simulator), of the campaign, ad-post
    and campaign-performance methods of [src/storage.ts] and of the lead
    scoring of [src/lead-scoring.ts], followed by the properties of the
    specification that concern them and by further properties of the code.

    Conventions of the embedding.
    - A JavaScript string is a [string]; one character stands for one UTF-16
      code unit, so [String.length] is [.length] and [substring 0 n] is
      [.substring(0, n)].
    - A [Date] is its local wall-clock reading in milliseconds, in a zone
      with a fixed offset (the cron comment of the routes names IST).
    - Integer columns are [Z].  The rates of the aggregator are JavaScript
      numbers, that is IEEE 754 binary64: a [spec_float] with the operations
      of the library's specification of binary64 ([SFdiv] and [SFmul] at
      precision 53, rounding to nearest, ties to even).  An integer below
      2^53 in absolute value converts to a number exactly.
    - [storage] is the object literal of [src/storage.ts]; calling a member
      that the literal does not define throws a [TypeError].
    - Every [await] is sequential, so asynchronous code is state passing
      over a [World]: the two tables, the wall clock, the random source and
      a fault plan telling which database statements fail.
    - A value of [Math.random()] is a rational in [0, 1), and the simulated
      metric is the floor of its exact product with the range, where the
      code rounds the product to a double before it takes the floor.
    - [console.log] and [console.error] are not modelled. *)

From Stdlib Require Import ZArith List String Ascii Bool Lia QArith Qround.
From Stdlib Require Import Permutation Sorted SpecFloat.
From Stdlib Require PrimFloat FloatOps.
Import ListNotations.
Open Scope string_scope.
Open Scope list_scope.
Open Scope Z_scope.

(** ** Data model *)

Inductive SocialPlatform : Type :=
  | facebook | instagram | twitter | whatsapp | telegram.

Definition platformName (p : SocialPlatform) : string :=
  match p with
  | facebook => "facebook"
  | instagram => "instagram"
  | twitter => "twitter"
  | whatsapp => "whatsapp"
  | telegram => "telegram"
  end.

(** The fields of a campaign that the scheduler and the aggregator read. *)
Record Campaign : Type := mkCampaign {
  c_id : Z;
  name : string;
  messageTemplate : string;
  formUrl : option string;
  c_status : string
}.

(** A row of the [adPosts] table.  [platform] and [status] are text columns:
    the aggregator still guards against platform names outside the enum. *)
Record AdPost : Type := mkAdPost {
  id : Z;
  campaignId : Z;
  platform : string;
  postContent : string;
  postTime : Z;
  status : string;
  location : option string;
  impressions : Z;
  clicks : Z;
  leadsCaptured : Z;
  createdAt : Z;
  updatedAt : Z
}.

(** [AdPostInsert]: what [createAdPost] receives.  The scheduler leaves the
    three metrics out. *)
Record AdPostInsert : Type := mkAdPostInsert {
  i_campaignId : Z;
  i_platform : string;
  i_postContent : string;
  i_postTime : Z;
  i_status : option string;
  i_location : option string;
  i_impressions : option Z;
  i_clicks : option Z;
  i_leadsCaptured : option Z
}.

(** [Partial<AdPostInsert>]: what [updateAdPost] receives. *)
Record AdPostPatch : Type := mkAdPostPatch {
  u_campaignId : option Z;
  u_platform : option string;
  u_postContent : option string;
  u_postTime : option Z;
  u_status : option string;
  u_location : option string;
  u_impressions : option Z;
  u_clicks : option Z;
  u_leadsCaptured : option Z
}.

(** ** Numbers *)

(** A JavaScript number. *)
Definition number : Type := spec_float.

(** The number of an integer: the double nearest to it. *)
Definition toNumber (z : Z) : number := binary_normalize 53 1024 z 0 false.

(** [x / y] and [x * y] on numbers. *)
Definition divide (x y : number) : number := SFdiv 53 1024 x y.

Definition times (x y : number) : number := SFmul 53 1024 x y.

(** [Number.isFinite]: neither [NaN] nor an infinity. *)
Definition isFinite (x : number) : bool :=
  match x with
  | S754_zero _ | S754_finite _ _ _ => true
  | S754_infinity _ | S754_nan => false
  end.

Record AdPostAnalytics : Type := mkAnalytics {
  pa_impressions : Z;
  pa_clicks : Z;
  pa_leadsCaptured : Z;
  pa_ctr : number;
  pa_conversionRate : number
}.

(** [platformBreakdown] is an object literal with five own keys; the
    association list keeps them in the order of the literal, which is the
    order [Object.keys] visits. *)
Definition Breakdown : Type := list (string * AdPostAnalytics).

Record CampaignPerformance : Type := mkPerformance {
  campaign : Campaign;
  totalPosts : Z;
  totalImpressions : Z;
  totalClicks : Z;
  totalLeads : Z;
  ctr : number;
  conversionRate : number;
  platformBreakdown : Breakdown
}.

(** ** Strings *)

Definition nl : string := String (ascii_of_nat 10) EmptyString.

(** JavaScript truthiness of an optional string: absent and empty are falsy. *)
Definition truthy (s : option string) : bool :=
  match s with
  | Some u => negb (String.eqb u EmptyString)
  | None => false
  end.

(** ** Dates *)

Definition msPerHour : Z := 3600000.
Definition msPerDay : Z := 86400000.

Definition dayOf (t : Z) : Z := t / msPerDay.
Definition getHours (t : Z) : Z := (t / msPerHour) mod 24.
Definition getMinutes (t : Z) : Z := (t / 60000) mod 60.
Definition getSeconds (t : Z) : Z := (t / 1000) mod 60.
Definition getMilliseconds (t : Z) : Z := t mod 1000.

(** [d.setHours(h, m, s, ms)]: same calendar day, new time of day. *)
Definition setHours (t h m s ms : Z) : Z :=
  msPerDay * (t / msPerDay) + h * msPerHour + m * 60000 + s * 1000 + ms.

(** date-fns [addHours]. *)
Definition addHours (t n : Z) : Z := t + n * msPerHour.

(** date-fns [isAfter] and [isBefore]; the first argument may be an Invalid
    Date ([None]), for which both comparisons are false. *)
Definition isAfter (d : option Z) (dateToCompare : Z) : bool :=
  match d with
  | Some t => dateToCompare <? t
  | None => false
  end.

Definition isBefore (d : option Z) (dateToCompare : Z) : bool :=
  match d with
  | Some t => t <? dateToCompare
  | None => false
  end.

(** ** Content generator *)

Definition generatePostContent (campaign : Campaign) (platform : SocialPlatform)
  : string :=
  let content := messageTemplate campaign in
  let content :=
    match platform with
    | facebook =>
        (content ++ nl ++ nl ++ "#StudentOpportunity #CareerGrowth")%string
    | instagram =>
        (content ++ nl ++ nl ++ "." ++ nl ++ "." ++ nl ++ "." ++ nl ++
         "#StudentOpportunity #CareerGrowth #StudentJobs #InternshipOpportunity")%string
    | twitter =>
        let content :=
          if (240 <? String.length content)%nat
          then (substring 0 237 content ++ "...")%string
          else content in
        (content ++ nl ++ nl ++ "#StudentJobs")%string
    | whatsapp =>
        ("*" ++ name campaign ++ "*" ++ nl ++ nl ++ content)%string
    | telegram =>
        ("<b>" ++ name campaign ++ "</b>" ++ nl ++ nl ++ content)%string
    end in
  if truthy (formUrl campaign)
  then
    match formUrl campaign with
    | Some url => (content ++ nl ++ nl ++ "Apply now: " ++ url)%string
    | None => content
    end
  else content.

(** ** The world and the monad of the asynchronous code *)

Record World : Type := mkWorld {
  campaignRows : list Campaign;
  adPostRows : list AdPost;
  nextAdPostId : Z;
  clockAt : nat -> Z;       (* the n-th reading of the wall clock *)
  dateReads : nat;          (* [new Date()] calls so far *)
  randomAt : nat -> Q;      (* the n-th value of [Math.random()], in [0, 1) *)
  randomReads : nat;
  dbFails : nat -> bool;    (* does the n-th database statement fail? *)
  dbOps : nat               (* database statements so far *)
}.

Inductive Error : Type :=
  | DbError
  | JsError (message : string)
  | TypeError (message : string).

Inductive Outcome (A : Type) : Type :=
  | Ok (a : A)
  | Throw (e : Error).
Arguments Ok {A} a.
Arguments Throw {A} e.

Definition M (A : Type) : Type := World -> Outcome A * World.

Definition ret {A} (a : A) : M A := fun w => (Ok a, w).

Definition throw {A} (e : Error) : M A := fun w => (Throw e, w).

Definition bind {A B} (m : M A) (k : A -> M B) : M B :=
  fun w =>
    match m w with
    | (Ok a, w') => k a w'
    | (Throw e, w') => (Throw e, w')
    end.

Definition tryCatch {A} (body : M A) (handler : Error -> M A) : M A :=
  fun w =>
    match body w with
    | (Ok a, w') => (Ok a, w')
    | (Throw e, w') => handler e w'
    end.

Declare Scope monad_scope.
Delimit Scope monad_scope with monad.
Notation "x <- m ;; k" := (bind m (fun x => k))
  (at level 61, m at next level, right associativity) : monad_scope.
Open Scope monad_scope.

(** [for (const x of xs) { await body(x) }]: a throw ends the loop. *)
Fixpoint forEachM {A} (body : A -> M unit) (xs : list A) : M unit :=
  match xs with
  | [] => ret tt
  | x :: rest => _ <- body x ;; forEachM body rest
  end.

Definition setAdPostRows (rows : list AdPost) (w : World) : World :=
  mkWorld (campaignRows w) rows (nextAdPostId w) (clockAt w) (dateReads w)
          (randomAt w) (randomReads w) (dbFails w) (dbOps w).

Definition setNextAdPostId (n : Z) (w : World) : World :=
  mkWorld (campaignRows w) (adPostRows w) n (clockAt w) (dateReads w)
          (randomAt w) (randomReads w) (dbFails w) (dbOps w).

(** [new Date()] *)
Definition newDate : M Z :=
  fun w =>
    (Ok (clockAt w (dateReads w)),
     mkWorld (campaignRows w) (adPostRows w) (nextAdPostId w) (clockAt w)
             (S (dateReads w)) (randomAt w) (randomReads w) (dbFails w) (dbOps w)).

(** [Math.random()] *)
Definition mathRandom : M Q :=
  fun w =>
    (Ok (randomAt w (randomReads w)),
     mkWorld (campaignRows w) (adPostRows w) (nextAdPostId w) (clockAt w)
             (dateReads w) (randomAt w) (S (randomReads w)) (dbFails w) (dbOps w)).

(** One awaited database statement: it is counted, and it either rejects,
    leaving the tables as they were, or runs. *)
Definition dbStatement {A} (run : World -> A * World) : M A :=
  fun w =>
    let w1 := mkWorld (campaignRows w) (adPostRows w) (nextAdPostId w) (clockAt w)
                      (dateReads w) (randomAt w) (randomReads w) (dbFails w)
                      (S (dbOps w)) in
    if dbFails w (dbOps w) then (Throw DbError, w1)
    else let (a, w2) := run w1 in (Ok a, w2).

(** ** The store: [src/storage.ts] *)

Definition orElse {A} (o : option A) (d : A) : A :=
  match o with
  | Some a => a
  | None => d
  end.

(** Modelled from the spec: the declaration of the [adPosts] table (module
    [@shared/schema]) is not among the sources.  The store is to "insert a
    new post record, returning the stored record with assigned id and
    timestamps", and a post is "created in scheduled state with zero
    metrics": the id is the next serial number, the timestamps are the
    current clock reading, and a column left out of the insert takes its
    default ("scheduled", zero). *)
Definition storedRow (adPost : AdPostInsert) (w : World) : AdPost :=
  let stamp := clockAt w (dateReads w) in
  mkAdPost (nextAdPostId w) (i_campaignId adPost) (i_platform adPost)
           (i_postContent adPost) (i_postTime adPost)
           (orElse (i_status adPost) "scheduled") (i_location adPost)
           (orElse (i_impressions adPost) 0) (orElse (i_clicks adPost) 0)
           (orElse (i_leadsCaptured adPost) 0) stamp stamp.

(** [db.insert(adPosts).values(adPost).returning()] *)
Definition dbInsertAdPost (adPost : AdPostInsert) : M AdPost :=
  dbStatement (fun w =>
    let row := storedRow adPost w in
    (row, setNextAdPostId (nextAdPostId w + 1)
            (setAdPostRows (adPostRows w ++ [row]) w))).

(** [{ ...data, updatedAt }] applied to a row by [.set]. *)
Definition applyPatch (data : AdPostPatch) (stamp : Z) (row : AdPost) : AdPost :=
  mkAdPost (id row)
           (orElse (u_campaignId data) (campaignId row))
           (orElse (u_platform data) (platform row))
           (orElse (u_postContent data) (postContent row))
           (orElse (u_postTime data) (postTime row))
           (orElse (u_status data) (status row))
           (match u_location data with Some l => Some l | None => location row end)
           (orElse (u_impressions data) (impressions row))
           (orElse (u_clicks data) (clicks row))
           (orElse (u_leadsCaptured data) (leadsCaptured row))
           (createdAt row) stamp.

(** [db.update(adPosts).set(..).where(eq(adPosts.id, id)).returning()] *)
Definition dbUpdateAdPost (target : Z) (data : AdPostPatch) (stamp : Z)
  : M (list AdPost) :=
  dbStatement (fun w =>
    let rows := map (fun row => if id row =? target
                                then applyPatch data stamp row else row)
                    (adPostRows w) in
    (filter (fun row => id row =? target) rows, setAdPostRows rows w)).

(** [db.select().from(campaigns).where(..)] *)
Definition dbSelectCampaigns (cond : Campaign -> bool) : M (list Campaign) :=
  dbStatement (fun w => (filter cond (campaignRows w), w)).

(** [db.select().from(adPosts).where(..)] *)
Definition dbSelectAdPosts (cond : AdPost -> bool) : M (list AdPost) :=
  dbStatement (fun w => (filter cond (adPostRows w), w)).

(** [.orderBy(desc(adPosts.createdAt))], as a stable insertion sort. *)
Fixpoint insertByCreatedAt (p : AdPost) (sorted : list AdPost) : list AdPost :=
  match sorted with
  | [] => [p]
  | q :: rest =>
      if createdAt q <=? createdAt p then p :: q :: rest
      else q :: insertByCreatedAt p rest
  end.

Definition orderByCreatedAtDesc (rows : list AdPost) : list AdPost :=
  fold_right insertByCreatedAt [] rows.

Definition getCampaignById (cid : Z) : M (option Campaign) :=
  tryCatch
    (rows <- dbSelectCampaigns (fun c => c_id c =? cid) ;;
     ret (hd_error rows))
    (fun _ => ret None).

(** [getAllAdPosts(campaignId?)].  Both branches [return] the query without
    awaiting it, so a rejection of the query is not seen by the surrounding
    [try]: the [catch] guards only the construction of the query, which does
    not fail, and the rejection reaches the caller.  [if (campaignId)] is a
    truthiness test: an absent id and the id 0 both take the second branch. *)
Definition getAllAdPosts (cid : option Z) : M (list AdPost) :=
  match cid with
  | Some c =>
      if negb (c =? 0)
      then rows <- dbSelectAdPosts (fun p => campaignId p =? c) ;;
           ret (orderByCreatedAtDesc rows)
      else rows <- dbSelectAdPosts (fun _ => true) ;;
           ret (orderByCreatedAtDesc rows)
  | None =>
      rows <- dbSelectAdPosts (fun _ => true) ;;
      ret (orderByCreatedAtDesc rows)
  end.

Definition createAdPost (adPost : AdPostInsert) : M AdPost :=
  tryCatch
    (newAdPost <- dbInsertAdPost adPost ;; ret newAdPost)
    (fun _ => throw (JsError "Failed to create ad post")).

Definition updateAdPost (target : Z) (data : AdPostPatch) : M (option AdPost) :=
  tryCatch
    (stamp <- newDate ;;
     rows <- dbUpdateAdPost target data stamp ;;
     ret (hd_error rows))
    (fun _ => ret None).

(** A call [storage.member(..)] for a name that the object literal does not
    define: the member is [undefined], and calling it throws a [TypeError]
    before anything is sent to the database. *)
Definition notAFunction {A} (member : string) : M A :=
  throw (TypeError ("storage." ++ member ++ " is not a function")).

(** [storage.getActiveCampaigns] and [storage.getCampaignPosts], which the
    scheduler calls at its lines 57 and 62.  The object [storage] (lines 19
    to 797 of [src/storage.ts]) has no member of either name; the nearest is
    [getActiveCampaign], which returns one campaign. *)
Definition getActiveCampaigns : M (list Campaign) :=
  notAFunction "getActiveCampaigns".

Definition getCampaignPosts (cid : Z) : M (list AdPost) :=
  notAFunction "getCampaignPosts".

(** *** Performance aggregator *)

Definition zeroAnalytics : AdPostAnalytics :=
  mkAnalytics 0 0 0 (S754_zero false) (S754_zero false).

Definition zeroBreakdown : Breakdown :=
  [ ("facebook"%string, zeroAnalytics);
    ("instagram"%string, zeroAnalytics);
    ("twitter"%string, zeroAnalytics);
    ("whatsapp"%string, zeroAnalytics);
    ("telegram"%string, zeroAnalytics) ].

(** [platformBreakdown[key]] on the own keys.  A name found only on the
    prototype chain makes the guard of the loop below true in JavaScript,
    but the three additions then land on the inherited object and leave the
    five entries alone, as here. *)
Fixpoint bucket (key : string) (b : Breakdown) : option AdPostAnalytics :=
  match b with
  | [] => None
  | (k, a) :: rest => if String.eqb k key then Some a else bucket key rest
  end.

Fixpoint setBucket (key : string) (f : AdPostAnalytics -> AdPostAnalytics)
    (b : Breakdown) : Breakdown :=
  match b with
  | [] => []
  | (k, a) :: rest =>
      if String.eqb k key then (k, f a) :: rest
      else (k, a) :: setBucket key f rest
  end.

Definition addPost (post : AdPost) (a : AdPostAnalytics) : AdPostAnalytics :=
  mkAnalytics (pa_impressions a + impressions post)
              (pa_clicks a + clicks post)
              (pa_leadsCaptured a + leadsCaptured post)
              (pa_ctr a) (pa_conversionRate a).

(** The body of [posts.forEach(post => ..)]. *)
Definition accumulate (b : Breakdown) (post : AdPost) : Breakdown :=
  if negb (String.eqb (platform post) EmptyString)
     && match bucket (platform post) b with Some _ => true | None => false end
  then setBucket (platform post) (addPost post) b
  else b.

(** The zero-guarded percentage [den > 0 ? (num / den) * 100 : 0]: a
    division and a multiplication of numbers, each rounded, and the literal
    [0], which is [+0]. *)
Definition percentage (num den : Z) : number :=
  if 0 <? den
  then times (divide (toNumber num) (toNumber den)) (toNumber 100)
  else S754_zero false.

(** The body of [Object.keys(platformBreakdown).forEach(platform => ..)]. *)
Definition withRates (a : AdPostAnalytics) : AdPostAnalytics :=
  mkAnalytics (pa_impressions a) (pa_clicks a) (pa_leadsCaptured a)
              (percentage (pa_clicks a) (pa_impressions a))
              (percentage (pa_leadsCaptured a) (pa_clicks a)).

Definition getCampaignPerformance (cid : Z) : M (option CampaignPerformance) :=
  tryCatch
    (found <- getCampaignById cid ;;
     match found with
     | None => ret None
     | Some campaign =>
         posts <- getAllAdPosts (Some cid) ;;
         if (List.length posts =? 0)%nat
         then ret (Some (mkPerformance campaign 0 0 0 0 (S754_zero false)
                                       (S754_zero false) zeroBreakdown))
         else
           let totalImpressions :=
             fold_left (fun sum post => sum + impressions post) posts 0 in
           let totalClicks :=
             fold_left (fun sum post => sum + clicks post) posts 0 in
           let totalLeads :=
             fold_left (fun sum post => sum + leadsCaptured post) posts 0 in
           let ctr := percentage totalClicks totalImpressions in
           let conversionRate := percentage totalLeads totalClicks in
           let platformBreakdown := fold_left accumulate posts zeroBreakdown in
           let platformBreakdown :=
             map (fun entry => (fst entry, withRates (snd entry)))
                 platformBreakdown in
           ret (Some (mkPerformance campaign (Z.of_nat (List.length posts))
                        totalImpressions totalClicks totalLeads
                        ctr conversionRate platformBreakdown))
     end)
    (fun _ => ret None).

(** ** The scheduler: [src/ad-scheduler.ts] *)

Definition platforms : list SocialPlatform :=
  [facebook; instagram; twitter; whatsapp; telegram].

(** Lines 82 to 96: the time of a new post, from the clock reading [t]. *)
Definition choosePostTime (t : Z) : Z :=
  if getHours t <? 9 then setHours t 9 0 0 0
  else if getHours t >=? 18 then setHours (addHours t 24) 9 0 0 0
  else setHours t (getHours t + 1) 0 0 0.

(** [parseISO(post.postTime.toString())] as the code performs it.  The post
    time is a [Date]: line 82 makes it with [new Date()] and line 106 hands
    it to the store.  [Date.prototype.toString] prints a date as
    "Mon Nov 02 2026 10:30:00 GMT+0530 (India Standard Time)", which is not
    ISO 8601: date-fns [parseISO] splits its argument at blanks and at "T",
    finds more than two parts and returns an Invalid Date, whatever the
    instant. *)
Definition parseISO_toString (postTime : Z) : option Z := None.

Section Scheduler.

(** What [parseISO(post.postTime.toString())] yields for a stored post
    time: an instant, or [None] for an Invalid Date.  The loop is stated
    for every such reading; [parseISO_toString] is the one of the code. *)
Variable parsePostTime : Z -> option Z.

(** The body of [for (const platform of platforms)], [plat] being the
    platform of the iteration. *)
Definition schedulePlatform (campaign : Campaign) (existingPosts : list AdPost)
    (plat : SocialPlatform) : M unit :=
  now <- newDate ;;
  let tomorrow := addHours now 24 in
  let scheduledPosts :=
    filter (fun post =>
              String.eqb (platform post) (platformName plat)
              && isAfter (parsePostTime (postTime post)) now
              && isBefore (parsePostTime (postTime post)) tomorrow)
           existingPosts in
  if (List.length scheduledPosts =? 0)%nat
  then
    postTime <- newDate ;;
    let postTime := choosePostTime postTime in
    let content := generatePostContent campaign plat in
    _ <- createAdPost
           (mkAdPostInsert (c_id campaign) (platformName plat) content
                           postTime (Some "scheduled"%string)
                           (Some "All India"%string) None None None) ;;
    ret tt
  else ret tt.

Definition checkAndSchedulePosts : M unit :=
  activeCampaigns <- getActiveCampaigns ;;
  forEachM (fun campaign =>
              existingPosts <- getCampaignPosts (c_id campaign) ;;
              forEachM (schedulePlatform campaign existingPosts) platforms)
           activeCampaigns.

End Scheduler.

(** [Math.floor(Math.random() * n) + base] *)
Definition simulated (r : Q) (n base : Z) : Z :=
  Qfloor (r * inject_Z n) + base.

(** The [try] block of [runSocialPost]. *)
Definition runSocialPost_try (post : AdPost) : M (option AdPost) :=
  r1 <- mathRandom ;;
  r2 <- mathRandom ;;
  r3 <- mathRandom ;;
  updatedPost <- updateAdPost (id post)
    (mkAdPostPatch None None None None (Some "posted"%string) None
                   (Some (simulated r1 1000 200))
                   (Some (simulated r2 200 50))
                   (Some (simulated r3 50 5))) ;;
  ret updatedPost.

(** The [catch] block of [runSocialPost]. *)
Definition runSocialPost_catch (post : AdPost) (error : Error) : M (option AdPost) :=
  updatedPost <- updateAdPost (id post)
    (mkAdPostPatch None None None None (Some "failed"%string) None
                   None None None) ;;
  ret updatedPost.

(** [runSocialPost] is declared to return an [AdPost], but it hands on what
    [updateAdPost] returns, which may be [null]. *)
Definition runSocialPost (post : AdPost) : M (option AdPost) :=
  tryCatch (runSocialPost_try post) (runSocialPost_catch post).

(** The loop of [runAllSocialPosts], [results] being the array built so far. *)
Fixpoint runAllLoop (posts : list AdPost) (results : list (option AdPost))
  : M (list (option AdPost)) :=
  match posts with
  | [] => ret results
  | post :: rest =>
      if String.eqb (status post) "scheduled"
      then updatedPost <- runSocialPost post ;;
           runAllLoop rest (results ++ [updatedPost])
      else runAllLoop rest (results ++ [Some post])
  end.

Definition runAllSocialPosts (posts : list AdPost) : M (list (option AdPost)) :=
  runAllLoop posts [].

(** ** Further methods of the store *)

Definition setCampaignRows (rows : list Campaign) (w : World) : World :=
  mkWorld rows (adPostRows w) (nextAdPostId w) (clockAt w) (dateReads w)
          (randomAt w) (randomReads w) (dbFails w) (dbOps w).

(** [db.delete(adPosts).where(..).returning()] *)
Definition dbDeleteAdPosts (cond : AdPost -> bool) : M (list AdPost) :=
  dbStatement (fun w =>
    (filter cond (adPostRows w),
     setAdPostRows (filter (fun row => negb (cond row)) (adPostRows w)) w)).

(** [db.delete(campaigns).where(..).returning()] *)
Definition dbDeleteCampaigns (cond : Campaign -> bool) : M (list Campaign) :=
  dbStatement (fun w =>
    (filter cond (campaignRows w),
     setCampaignRows (filter (fun row => negb (cond row)) (campaignRows w)) w)).

(** [!!row] for the first row of a result. *)
Definition anyRow {A} (rows : list A) : bool :=
  match hd_error rows with
  | Some _ => true
  | None => false
  end.

Definition getActiveCampaign : M (option Campaign) :=
  tryCatch
    (rows <- dbSelectCampaigns (fun c => String.eqb (c_status c) "active") ;;
     ret (hd_error rows))
    (fun _ => ret None).

Definition deleteCampaign (cid : Z) : M bool :=
  tryCatch
    (_ <- dbDeleteAdPosts (fun p => campaignId p =? cid) ;;
     rows <- dbDeleteCampaigns (fun c => c_id c =? cid) ;;
     ret (anyRow rows))
    (fun _ => ret false).

Definition getAdPostById (target : Z) : M (option AdPost) :=
  tryCatch
    (rows <- dbSelectAdPosts (fun p => id p =? target) ;;
     ret (hd_error rows))
    (fun _ => ret None).

Definition updateAdPostStats (target impressions clicks leadsCaptured : Z)
  : M (option AdPost) :=
  tryCatch
    (stamp <- newDate ;;
     rows <- dbUpdateAdPost target
               (mkAdPostPatch None None None None None None
                              (Some impressions) (Some clicks)
                              (Some leadsCaptured))
               stamp ;;
     ret (hd_error rows))
    (fun _ => ret None).

Definition deleteAdPost (target : Z) : M bool :=
  tryCatch
    (rows <- dbDeleteAdPosts (fun p => id p =? target) ;;
     ret (anyRow rows))
    (fun _ => ret false).

(** ** Lead scoring: [src/lead-scoring.ts]

    [scoreLead] is what the store applies to the leads it lists.  Strings
    are as before: a character is a code unit, here of the Latin-1 range, on
    which [toLowerCase] and [trim] act as below. *)

(** The fields of a lead that [scoreLead] reads. *)
Record Lead : Type := mkLead {
  l_state : option string;
  l_createdAt : option Z;
  l_education : option string;
  l_age : option string;
  l_source : option string
}.

Record LeadScore : Type := mkLeadScore {
  score : Z;
  breakdown : list (string * Z);
  label : string
}.

(** [{ ...lead, score, scoreLabel }] *)
Record ScoredLead : Type := mkScoredLead {
  sl_lead : Lead;
  sl_score : Z;
  sl_scoreLabel : string
}.

Definition lowerChar (ch : ascii) : ascii :=
  let n := nat_of_ascii ch in
  if ((65 <=? n) && (n <=? 90)
      || (192 <=? n) && (n <=? 222) && negb (n =? 215))%nat
  then ascii_of_nat (n + 32) else ch.

Fixpoint toLowerCase (s : string) : string :=
  match s with
  | EmptyString => EmptyString
  | String ch rest => String (lowerChar ch) (toLowerCase rest)
  end.

(** White space and line terminators of JavaScript among these code units. *)
Definition isWhiteSpace (ch : ascii) : bool :=
  let n := nat_of_ascii ch in
  ((9 <=? n) && (n <=? 13) || (n =? 32) || (n =? 160))%nat.

Fixpoint trimStart (s : string) : string :=
  match s with
  | EmptyString => EmptyString
  | String ch rest => if isWhiteSpace ch then trimStart rest else s
  end.

Fixpoint trimEnd (s : string) : string :=
  match s with
  | EmptyString => EmptyString
  | String ch rest =>
      match trimEnd rest with
      | EmptyString => if isWhiteSpace ch then EmptyString
                       else String ch EmptyString
      | kept => String ch kept
      end
  end.

Definition trim (s : string) : string := trimEnd (trimStart s).

(** [s.includes(needle)] *)
Fixpoint includes (s needle : string) : bool :=
  prefix needle s
  || match s with
     | EmptyString => false
     | String _ rest => includes rest needle
     end.

Definition tier1States : list string :=
  ["Maharashtra"; "Delhi"; "Karnataka"; "Tamil Nadu"; "Telangana"; "Gujarat"].

Definition tier2States : list string :=
  ["Haryana"; "Uttar Pradesh"; "West Bengal"; "Kerala"; "Rajasthan"; "Punjab"].

Definition getStateTierScore (state : option string) : Z :=
  if negb (truthy state) then 0
  else
    match state with
    | None => 0
    | Some state =>
        let normalizedState := toLowerCase (trim state) in
        if existsb (fun s => String.eqb (toLowerCase s) normalizedState) tier1States
        then 20
        else if existsb (fun s => String.eqb (toLowerCase s) normalizedState)
                        tier2States
        then 10
        else 5
    end.

(** [Math.floor((now - leadDate) / (1000 * 60 * 60 * 24))]: the quotient of
    two integers of this size is far from the next integer unless it is
    one, so the floor of the floating-point quotient is the integer
    quotient rounded down. *)
Definition getRecencyScore (createdAt : option Z) : M Z :=
  match createdAt with
  | None => ret 0
  | Some leadDate =>
      now <- newDate ;;
      let daysDifference := (now - leadDate) / (1000 * 60 * 60 * 24) in
      if daysDifference <=? 1 then ret 20
      else if daysDifference <=? 3 then ret 15
      else if daysDifference <=? 7 then ret 10
      else if daysDifference <=? 30 then ret 5
      else ret 2
  end.

Definition getEducationScore (education : option string) : Z :=
  if negb (truthy education) then 0
  else
    match education with
    | None => 0
    | Some education =>
        let normalizedEducation := toLowerCase (trim education) in
        if includes normalizedEducation "post graduate"
           || includes normalizedEducation "pg"
           || includes normalizedEducation "masters"
           || includes normalizedEducation "mba"
        then 20
        else if includes normalizedEducation "graduate"
                || includes normalizedEducation "bachelors"
                || includes normalizedEducation "btech"
                || includes normalizedEducation "bba"
        then 15
        else if includes normalizedEducation "12th"
                || includes normalizedEducation "senior secondary"
                || includes normalizedEducation "higher secondary"
        then 10
        else if includes normalizedEducation "10th"
                || includes normalizedEducation "secondary"
        then 5
        else 2
    end.

Definition isDigit (ch : ascii) : bool :=
  let n := nat_of_ascii ch in ((48 <=? n) && (n <=? 57))%nat.

(** [age.replace(/[^\d]/g, '')] *)
Fixpoint digitsOf (s : string) : string :=
  match s with
  | EmptyString => EmptyString
  | String ch rest =>
      if isDigit ch then String ch (digitsOf rest) else digitsOf rest
  end.

Fixpoint decimalValue (digits : string) (acc : Z) : Z :=
  match digits with
  | EmptyString => acc
  | String ch rest =>
      decimalValue rest (10 * acc + Z.of_nat (nat_of_ascii ch - 48))
  end.

(** [parseInt] on a string of digits only: [NaN] ([None]) for the empty
    string, else the decimal value.  JavaScript rounds a value beyond 2^53
    to a double; the comparisons below, against numbers up to 50, do not see
    the difference. *)
Definition parseIntOfDigits (digits : string) : option Z :=
  match digits with
  | EmptyString => None
  | _ => Some (decimalValue digits 0)
  end.

Definition getAgeScore (age : option string) : Z :=
  if negb (truthy age) then 0
  else
    match age with
    | None => 0
    | Some age =>
        match parseIntOfDigits (digitsOf age) with
        | None => 0
        | Some ageNum =>
            if (22 <=? ageNum) && (ageNum <=? 30) then 20
            else if (18 <=? ageNum) && (ageNum <=? 21) then 15
            else if (31 <=? ageNum) && (ageNum <=? 40) then 10
            else if (41 <=? ageNum) && (ageNum <=? 50) then 5
            else 2
        end
    end.

Definition getSourceScore (source : option string) : Z :=
  if negb (truthy source) then 0
  else
    match source with
    | None => 0
    | Some source =>
        let lowered := toLowerCase source in
        if String.eqb lowered "website" then 20
        else if String.eqb lowered "landing_page" then 18
        else if String.eqb lowered "referral" then 15
        else if String.eqb lowered "facebook" || String.eqb lowered "instagram"
        then 12
        else if String.eqb lowered "whatsapp" || String.eqb lowered "telegram"
        then 10
        else if String.eqb lowered "twitter" then 8
        else if String.eqb lowered "college" then 10
        else 5
    end.

Definition scoreLead (lead : Lead) : M LeadScore :=
  let stateTierScore := getStateTierScore (l_state lead) in
  recencyScore <- getRecencyScore (l_createdAt lead) ;;
  let educationScore := getEducationScore (l_education lead) in
  let ageScore := getAgeScore (l_age lead) in
  let sourceScore := getSourceScore (l_source lead) in
  let breakdown :=
    [("location", stateTierScore); ("recency", recencyScore);
     ("education", educationScore); ("age", ageScore);
     ("source", sourceScore)] in
  let totalScore :=
    stateTierScore + recencyScore + educationScore + ageScore + sourceScore in
  let label :=
    if totalScore >=? 70 then "Hot"
    else if totalScore >=? 50 then "Warm"
    else "Cold" in
  ret (mkLeadScore totalScore breakdown label).

(** [leads.map(lead => ..)] with a body that reads the clock. *)
Fixpoint mapM {A B} (f : A -> M B) (xs : list A) : M (list B) :=
  match xs with
  | [] => ret []
  | x :: rest => y <- f x ;; ys <- mapM f rest ;; ret (y :: ys)
  end.

Definition batchScoreLeads (leads : list Lead) : M (list ScoredLead) :=
  mapM (fun lead =>
          scored <- scoreLead lead ;;
          ret (mkScoredLead lead (score scored) (label scored)))
       leads.

(** ** Vocabulary of the statements *)

(** The optional call-to-action line, as a suffix. *)
Definition callToAction (c : Campaign) : string :=
  match formUrl c with
  | Some url =>
      if String.eqb url EmptyString then EmptyString
      else (nl ++ nl ++ "Apply now: " ++ url)%string
  | None => EmptyString
  end.

Definition twitterSuffix : string := (nl ++ nl ++ "#StudentJobs")%string.

(** "Day [d] at [h]:00:00.000". *)
Definition onTheHour (t d h : Z) : Prop :=
  dayOf t = d /\ getHours t = h /\ getMinutes t = 0 /\ getSeconds t = 0
  /\ getMilliseconds t = 0.

(** The test of the filter in the scheduling loop: the post is for the
    platform and its time, as parsed, lies strictly between [now] and
    [now] plus 24 hours. *)
Definition coversPlatform (parse : Z -> option Z) (plat : SocialPlatform)
    (now : Z) (post : AdPost) : bool :=
  String.eqb (platform post) (platformName plat)
  && isAfter (parse (postTime post)) now
  && isBefore (parse (postTime post)) (addHours now 24).

(** The record the scheduler hands to [createAdPost]. *)
Definition scheduledInsert (c : Campaign) (plat : SocialPlatform) (t : Z)
  : AdPostInsert :=
  mkAdPostInsert (c_id c) (platformName plat) (generatePostContent c plat)
                 (choosePostTime t) (Some "scheduled") (Some "All India")
                 None None None.

(** The rule of section 4.2.d for the time of a new post, [t] being the
    clock reading it is computed from. *)
Definition postTimeRule (t : Z) (row : AdPost) : Prop :=
  (getHours t < 9 -> onTheHour (postTime row) (dayOf t) 9)
  /\ (18 <= getHours t -> onTheHour (postTime row) (dayOf t + 1) 9)
  /\ (9 <= getHours t < 18 ->
      onTheHour (postTime row) (dayOf t) (getHours t + 1)).

(** A row as the scheduler creates it. *)
Definition freshlyScheduled (row : AdPost) : Prop :=
  status row = "scheduled" /\ impressions row = 0 /\ clicks row = 0
  /\ leadsCaptured row = 0.

(** The percentage as the processor computes it: the same division and
    multiplication on the primitive floating-point numbers, which are the
    doubles of the machine. *)
Definition onPrimitiveFloats (num den : Z) : number :=
  FloatOps.Prim2SF
    (PrimFloat.mul
       (PrimFloat.div (FloatOps.SF2Prim (toNumber num))
                      (FloatOps.SF2Prim (toNumber den)))
       (FloatOps.SF2Prim (toNumber 100))).

(** An integer that a number holds exactly. *)
Definition safeInteger (z : Z) : Prop := Z.abs z < 2 ^ 53.

(** [rate] is what [den > 0 ? (num / den) * 100 : 0] yields: exactly [+0]
    unless [den] is positive; for a positive [den] the quotient of the two
    numbers, rounded, multiplied by 100 and rounded again; and in both cases
    a finite number when the two counts are integers that numbers hold
    exactly. *)
Definition zeroGuarded (rate : number) (num den : Z) : Prop :=
  (0 < den -> rate = times (divide (toNumber num) (toNumber den)) (toNumber 100))
  /\ (den <= 0 -> rate = S754_zero false)
  /\ (safeInteger num -> safeInteger den -> isFinite rate = true).

(** The rational that a finite number stands for. *)
Definition valueOf (x : number) : option Q :=
  match x with
  | S754_zero _ => Some 0%Q
  | S754_finite s m e =>
      Some ((if s then inject_Z (Zneg m) else inject_Z (Zpos m)) * 2 ^ e)%Q
  | S754_infinity _ | S754_nan => None
  end.

(** The percentage without rounding. *)
Definition exactPercentage (num den : Z) : Q :=
  (inject_Z num / inject_Z den * inject_Z 100)%Q.

Definition platformKeys : list string :=
  ["facebook"; "instagram"; "twitter"; "whatsapp"; "telegram"].

(** Some database statement issued between [w] and [w'] failed. *)
Definition faultDuring (w w' : World) : Prop :=
  exists n, (dbOps w <= n < dbOps w')%nat /\ dbFails w n = true.

(** A computation that swallows no failure of the store: it leaves the
    fault plan alone, only ever issues further statements, and throws
    whenever one of the statements it issued failed. *)
Definition Propagating {A} (m : M A) : Prop :=
  forall w,
    dbFails (snd (m w)) = dbFails w
    /\ (dbOps w <= dbOps (snd (m w)))%nat
    /\ (faultDuring w (snd (m w)) -> exists e, fst (m w) = Throw e).

(** What [runSocialPost] returns for [post]: [null], or a record of the
    same id in status "posted". *)
Definition nullOrPosted (post : AdPost) (result : option AdPost) : Prop :=
  result = None
  \/ exists q, result = Some q /\ id q = id post /\ status q = "posted".

(** What [runAllSocialPosts] puts at the place of [post]: a post that is
    not "scheduled" itself; for a "scheduled" one what [runSocialPost]
    returned. *)
Definition ranAs (post : AdPost) (result : option AdPost) : Prop :=
  if String.eqb (status post) "scheduled"
  then nullOrPosted post result
  else result = Some post.

(** A value of [Math.random()]. *)
Definition unitInterval (r : Q) : Prop := (0 <= r)%Q /\ (r < 1)%Q.








(** A row as the scheduler creates it from some reading of the clock [clk]. *)
Definition scheduledBy (clk : nat -> Z) (row : AdPost) : Prop :=
  freshlyScheduled row /\ exists n, postTime row = choosePostTime (clk n).

(** From [w] to [w'] the clock is the same and the table of posts only grew,
    by rows that are [good] for that clock. *)
Definition appended (good : (nat -> Z) -> AdPost -> Prop) (w w' : World) : Prop :=
  clockAt w' = clockAt w
  /\ exists extra,
       adPostRows w' = adPostRows w ++ extra
       /\ Forall (good (clockAt w)) extra.

(** [R] relates the world before the computation to the world after it,
    whether it returns or throws. *)
Definition Steps {A} (R : World -> World -> Prop) (m : M A) : Prop :=
  forall w, R w (snd (m w)).

(** A computation that changes neither the clock nor the table of posts. *)
Definition Quiet {A} (m : M A) : Prop :=
  forall w,
    clockAt (snd (m w)) = clockAt w /\ adPostRows (snd (m w)) = adPostRows w.

(** ** Sample data for the concrete runs *)

Fixpoint repeatChar (n : nat) (ch : ascii) : string :=
  match n with
  | O => EmptyString
  | S k => String ch (repeatChar k ch)
  end.

Definition campaignWith (template : string) : Campaign :=
  mkCampaign 1 "Summer internships" template
             (Some "https://example.org/form/1") "active".

Definition internships : Campaign :=
  campaignWith "Paid summer internships for students".

(** Clock readings of one sample day. *)
Definition sampleDay : Z := 20759.

Definition clockTime (h m : Z) : Z :=
  sampleDay * msPerDay + h * msPerHour + m * 60000.

(** A store holding the sample campaign and the rows [posts], in which every
    clock reading is [t] and every database statement succeeds or fails as
    [faulty] says. *)
Definition worldAt (t : Z) (posts : list AdPost) (faulty : bool) : World :=
  mkWorld [internships] posts 100 (fun _ => t) 0 (fun _ => 1 # 2) 0
          (fun _ => faulty) 0.

Definition samplePost (pid : Z) (plat : string) (t : Z) (st : string) : AdPost :=
  mkAdPost pid 1 plat "Paid summer internships for students" t st
           (Some "All India") 0 0 0 t t.

Definition measuredPost (pid : Z) (plat : string) (st : string)
    (imp cl leads : Z) : AdPost :=
  mkAdPost pid 1 plat "Paid summer internships for students" (clockTime 9 0) st
           (Some "All India") imp cl leads (clockTime 8 0) (clockTime 8 0).

(** The primary key of [adPosts]: the stored ids are pairwise distinct and
    below the next serial number. *)
Definition wellKeyed (w : World) : Prop :=
  NoDup (map id (adPostRows w))
  /\ Forall (fun i => i < nextAdPostId w) (map id (adPostRows w)).

(** The computation keeps the primary key in order. *)
Definition keepsKeys (w w' : World) : Prop := wellKeyed w -> wellKeyed w'.

(** The rows [getAllAdPosts] selects for its argument. *)
Definition selectedBy (cid : option Z) (p : AdPost) : bool :=
  match cid with
  | Some c => if c =? 0 then true else campaignId p =? c
  | None => true
  end.

(** Newest first. *)
Definition newerFirst (a b : AdPost) : Prop := createdAt b <= createdAt a.

(** The sum of a metric over posts. *)
Definition sumOf (metric : AdPost -> Z) (posts : list AdPost) : Z :=
  fold_right (fun p acc => metric p + acc) 0 posts.

(** The posts of a platform, and the posts of no platform of the enum. *)
Definition onPlatform (plat : SocialPlatform) (p : AdPost) : bool :=
  String.eqb (platform p) (platformName plat).

Definition onNoPlatform (p : AdPost) : bool :=
  negb (existsb (fun plat => onPlatform plat p) platforms).

(** The campaign without its form URL. *)
Definition withoutFormUrl (c : Campaign) : Campaign :=
  mkCampaign (c_id c) (name c) (messageTemplate c) None (c_status c).

(** The posts among the results, without the [null] entries. *)
Fixpoint withoutNulls (results : list (option AdPost)) : list AdPost :=
  match results with
  | [] => []
  | Some post :: rest => post :: withoutNulls rest
  | None :: rest => withoutNulls rest
  end.

(** The number of posts in status "scheduled". *)
Definition scheduledCount (posts : list AdPost) : nat :=
  List.length (filter (fun p => String.eqb (status p) "scheduled") posts).

(** Label and score agree: "Hot" from 70, "Warm" from 50, else "Cold". *)
Definition labelled (total : Z) (lab : string) : Prop :=
  (lab = "Hot" /\ 70 <= total)
  \/ (lab = "Warm" /\ 50 <= total < 70)
  \/ (lab = "Cold" /\ total < 50).

(** The number of the five scored fields that the lead lacks: an absent
    value or, for a string, the empty string. *)
Definition missingFields (lead : Lead) : nat :=
  ((if truthy (l_state lead) then 0 else 1)
   + (match l_createdAt lead with Some _ => 0 | None => 1 end)
   + (if truthy (l_education lead) then 0 else 1)
   + (if truthy (l_age lead) then 0 else 1)
   + (if truthy (l_source lead) then 0 else 1))%nat.

(** The band of an age in years. *)
Definition ageBand (years : Z) : Z :=
  if (22 <=? years) && (years <=? 30) then 20
  else if (18 <=? years) && (years <=? 21) then 15
  else if (31 <=? years) && (years <=? 40) then 10
  else if (41 <=? years) && (years <=? 50) then 5
  else 2.

Definition sampleLead : Lead :=
  mkLead (Some "  Tamil Nadu ") (Some (clockTime 9 0)) (Some "B.Tech graduate")
         (Some "24 years") (Some "Website").

(* ================================================================== *)
(** * Properties *)
(* ================================================================== *)

(** ** Strings *)

Lemma append_nil_r (s : string) : (s ++ EmptyString)%string = s.
Proof. induction s as [|ch s IH]; simpl; [reflexivity | now rewrite IH]. Qed.

Lemma append_assoc (a b c : string) :
  ((a ++ b) ++ c)%string = (a ++ (b ++ c))%string.
Proof. induction a as [|ch a IH]; simpl; [reflexivity | now rewrite IH]. Qed.

Lemma length_substring_0 (m : nat) : forall s : string,
  (m <= String.length s)%nat -> String.length (substring 0 m s) = m.
Proof.
  induction m as [|m IH]; intros [|ch s] Hlen; simpl in *; try reflexivity.
  - lia.
  - f_equal. apply IH. lia.
Qed.

Lemma prefix_substring_0 (m : nat) : forall s : string,
  prefix (substring 0 m s) s = true.
Proof.
  induction m as [|m IH]; intros [|ch s]; simpl; try reflexivity.
  destruct (ascii_dec ch ch) as [_|Hne]; [apply IH | now elim Hne].
Qed.

(** ** Content generator *)

Lemma generatePostContent_callToAction (c : Campaign) (body : string) :
  (if truthy (formUrl c)
   then match formUrl c with
        | Some url => (body ++ nl ++ nl ++ "Apply now: " ++ url)%string
        | None => body
        end
   else body) = (body ++ callToAction c)%string.
Proof.
  unfold callToAction, truthy.
  destruct (formUrl c) as [url|]; [|now rewrite append_nil_r].
  destruct (String.eqb url EmptyString); simpl; [now rewrite append_nil_r | reflexivity].
Qed.

(** C2, as the code has it: the threshold of the twitter branch is 240
    characters, not 237.  A template of at most 240 characters is kept
    whole and gets no ellipsis; a longer one is cut to its first 237
    characters followed by the ellipsis; in both cases the hashtag suffix
    and then the optional call-to-action line follow. *)
Theorem twitter_truncates_beyond_240 (c : Campaign) :
  ((String.length (messageTemplate c) <= 240)%nat ->
     generatePostContent c twitter
     = (messageTemplate c ++ twitterSuffix ++ callToAction c)%string)
  /\
  ((240 < String.length (messageTemplate c))%nat ->
     String.length (substring 0 237 (messageTemplate c)) = 237%nat
     /\ prefix (substring 0 237 (messageTemplate c)) (messageTemplate c) = true
     /\ generatePostContent c twitter
        = (substring 0 237 (messageTemplate c) ++ "..." ++ twitterSuffix
           ++ callToAction c)%string).
Proof.
  unfold generatePostContent.
  rewrite generatePostContent_callToAction.
  split; intros Hlen.
  - destruct (Nat.ltb_spec 240 (String.length (messageTemplate c))); [lia|].
    unfold twitterSuffix. now rewrite !append_assoc.
  - destruct (Nat.ltb_spec 240 (String.length (messageTemplate c))); [|lia].
    split; [apply length_substring_0; lia|].
    split; [apply prefix_substring_0|].
    unfold twitterSuffix. now rewrite !append_assoc.
Qed.

Lemma twitter_truncates_beyond_240_witness :
  (240 < String.length (messageTemplate (campaignWith (repeatChar 300 "a"))))%nat
  /\ generatePostContent (campaignWith (repeatChar 300 "a")) twitter
     = (repeatChar 237 "a" ++ "..." ++ twitterSuffix
        ++ callToAction (campaignWith (repeatChar 300 "a")))%string.
Proof.
  assert (Hlen : (240 < String.length
                          (messageTemplate (campaignWith (repeatChar 300 "a"))))%nat)
    by (vm_compute; lia).
  split; [exact Hlen|].
  destruct (twitter_truncates_beyond_240 (campaignWith (repeatChar 300 "a")))
    as [_ Hlong].
  destruct (Hlong Hlen) as (_ & _ & Hout).
  rewrite Hout. reflexivity.
Defined.

(** C2 fails as stated: a template of 238 characters is longer than 237,
    yet the whole of it is the base of the twitter content, with no
    ellipsis before the hashtag suffix; the content is not the one cut to
    237 characters. *)
Lemma twitter_keeps_238_characters :
  (237 < String.length (messageTemplate (campaignWith (repeatChar 238 "a"))))%nat
  /\ generatePostContent (campaignWith (repeatChar 238 "a")) twitter
     = (repeatChar 238 "a" ++ twitterSuffix
        ++ callToAction (campaignWith (repeatChar 238 "a")))%string
  /\ generatePostContent (campaignWith (repeatChar 238 "a")) twitter
     <> (substring 0 237 (repeatChar 238 "a") ++ "..." ++ twitterSuffix
         ++ callToAction (campaignWith (repeatChar 238 "a")))%string.
Proof.
  split; [vm_compute; lia|]. split; [vm_compute; reflexivity|].
  intros Heq. apply (f_equal String.length) in Heq.
  vm_compute in Heq. discriminate Heq.
Qed.

(** ** Dates *)

Lemma setHours_onTheHour (t h : Z) :
  0 <= h < 24 -> onTheHour (setHours t h 0 0 0) (dayOf t) h.
Proof.
  intros Hh.
  unfold onTheHour, setHours, dayOf, getHours, getMinutes, getSeconds,
    getMilliseconds, msPerDay, msPerHour.
  repeat split; Z.div_mod_to_equations; lia.
Qed.

Lemma dayOf_addHours_24 (t : Z) : dayOf (addHours t 24) = dayOf t + 1.
Proof.
  unfold dayOf, addHours, msPerDay, msPerHour.
  Z.div_mod_to_equations; lia.
Qed.

Lemma choosePostTime_onTheHour (t : Z) :
  (getHours t < 9 -> onTheHour (choosePostTime t) (dayOf t) 9)
  /\ (18 <= getHours t -> onTheHour (choosePostTime t) (dayOf t + 1) 9)
  /\ (9 <= getHours t < 18 ->
      onTheHour (choosePostTime t) (dayOf t) (getHours t + 1)).
Proof.
  unfold choosePostTime.
  split; [|split]; intros Hh.
  - destruct (Z.ltb_spec (getHours t) 9); [|lia].
    apply setHours_onTheHour; lia.
  - destruct (Z.ltb_spec (getHours t) 9); [lia|].
    destruct (Z.geb_spec (getHours t) 18); [|lia].
    rewrite <- dayOf_addHours_24. apply setHours_onTheHour; lia.
  - destruct (Z.ltb_spec (getHours t) 9); [lia|].
    destruct (Z.geb_spec (getHours t) 18); [lia|].
    apply setHours_onTheHour; lia.
Qed.

Example choosePostTime_at_8_59 :
  choosePostTime (clockTime 8 59) = clockTime 9 0.
Proof. reflexivity. Qed.

Example choosePostTime_at_18_00 :
  choosePostTime (clockTime 18 0) = clockTime 9 0 + msPerDay.
Proof. reflexivity. Qed.

Example choosePostTime_at_13_00 :
  choosePostTime (clockTime 13 0) = clockTime 14 0.
Proof. reflexivity. Qed.

(** ** The store *)

(** Runs the monadic plumbing of a goal and projects the resulting worlds. *)
Ltac run :=
  cbv [bind tryCatch ret throw dbStatement newDate mathRandom
       createAdPost dbInsertAdPost updateAdPost dbUpdateAdPost
       dbSelectCampaigns dbSelectAdPosts getActiveCampaigns getCampaignPosts
       notAFunction setAdPostRows setNextAdPostId];
  cbn [fst snd campaignRows adPostRows nextAdPostId clockAt dateReads
       randomAt randomReads dbFails dbOps].

Lemma createAdPost_ok (adPost : AdPostInsert) (w : World) :
  dbFails w (dbOps w) = false ->
  exists w', createAdPost adPost w = (Ok (storedRow adPost w), w')
             /\ adPostRows w' = adPostRows w ++ [storedRow adPost w]
             /\ dbOps w' = S (dbOps w) /\ dbFails w' = dbFails w
             /\ dateReads w' = dateReads w /\ clockAt w' = clockAt w.
Proof.
  intros Hok. unfold createAdPost, tryCatch, bind, dbInsertAdPost, dbStatement.
  rewrite Hok. simpl. eexists. repeat split.
Qed.

Lemma createAdPost_fails (adPost : AdPostInsert) (w : World) :
  dbFails w (dbOps w) = true ->
  exists w', createAdPost adPost w = (Throw (JsError "Failed to create ad post"), w')
             /\ adPostRows w' = adPostRows w
             /\ dbOps w' = S (dbOps w) /\ dbFails w' = dbFails w.
Proof.
  intros Hko. unfold createAdPost, tryCatch, bind, dbInsertAdPost, dbStatement.
  rewrite Hko. simpl. eexists. repeat split.
Qed.

Lemma bind_Ok {A B} (m : M A) (k : A -> M B) (w w1 : World) (a : A) :
  m w = (Ok a, w1) -> bind m k w = k a w1.
Proof. intros Hm. unfold bind. now rewrite Hm. Qed.

(** ** The scheduling loop *)

Lemma schedulePlatform_unfold parse c existing plat w :
  schedulePlatform parse c existing plat w
  = (if (List.length
           (filter (coversPlatform parse plat (clockAt w (dateReads w)))
                   existing) =? 0)%nat
     then t <- newDate ;;
          _ <- createAdPost (scheduledInsert c plat t) ;;
          ret tt
     else ret tt) (snd (newDate w)).
Proof. reflexivity. Qed.

Lemma filter_none {A} (f : A -> bool) (l : list A) :
  (forall x, In x l -> f x = false) ->
  (List.length (filter f l) =? 0)%nat = true.
Proof.
  intros Hall. induction l as [|x l IH]; simpl; [reflexivity|].
  rewrite (Hall x (or_introl eq_refl)). apply IH.
  intros y Hy. apply Hall. now right.
Qed.

(** One iteration either leaves the table alone or appends the one row that
    [createAdPost] stores for the record built from the second clock
    reading. *)
Lemma schedulePlatform_rows parse c existing plat w :
  let w' := snd (schedulePlatform parse c existing plat w) in
  let t := clockAt w (S (dateReads w)) in
  adPostRows w' = adPostRows w
  \/ exists row,
       adPostRows w' = adPostRows w ++ [row]
       /\ platform row = platformName plat
       /\ campaignId row = c_id c
       /\ postTime row = choosePostTime t
       /\ freshlyScheduled row.
Proof.
  rewrite schedulePlatform_unfold.
  destruct (List.length _ =? 0)%nat; [|left; reflexivity].
  run. destruct (dbFails w (dbOps w)); run; [left; reflexivity|].
  right. eexists. split; [reflexivity|]. repeat split.
Qed.

Lemma schedulePlatform_creates parse c existing plat w :
  (forall post, In post existing ->
     coversPlatform parse plat (clockAt w (dateReads w)) post = false) ->
  dbFails w (dbOps w) = false ->
  fst (schedulePlatform parse c existing plat w) = Ok tt
  /\ List.length (adPostRows (snd (schedulePlatform parse c existing plat w)))
     = S (List.length (adPostRows w)).
Proof.
  intros Hnone Hok.
  rewrite schedulePlatform_unfold, (filter_none _ _ Hnone).
  run. rewrite Hok. run.
  split; [reflexivity|]. rewrite length_app. simpl. lia.
Qed.

Lemma schedulePlatform_clock parse c existing plat w :
  clockAt (snd (schedulePlatform parse c existing plat w)) = clockAt w.
Proof.
  rewrite schedulePlatform_unfold.
  destruct (List.length _ =? 0)%nat; run; [|reflexivity].
  destruct (dbFails w (dbOps w)); reflexivity.
Qed.

(** *** Relations between the world before and after *)

Section StepRules.

Variable R : World -> World -> Prop.
Hypothesis R_refl : forall w, R w w.
Hypothesis R_trans : forall w1 w2 w3, R w1 w2 -> R w2 w3 -> R w1 w3.

Lemma Steps_ret {A} (a : A) : Steps R (ret a).
Proof. intros w. apply R_refl. Qed.

Lemma Steps_bind {A B} (m : M A) (k : A -> M B) :
  Steps R m -> (forall a, Steps R (k a)) -> Steps R (bind m k).
Proof.
  intros Hm Hk w. unfold bind. specialize (Hm w).
  destruct (m w) as [[a|e] w1]; cbn [snd] in Hm.
  - apply (R_trans _ _ _ Hm). apply Hk.
  - exact Hm.
Qed.

Lemma Steps_forEachM {A} (body : A -> M unit) (xs : list A) :
  (forall x, Steps R (body x)) -> Steps R (forEachM body xs).
Proof.
  intros Hbody. induction xs as [|x xs IH]; simpl.
  - apply Steps_ret.
  - apply Steps_bind; [apply Hbody | intros _; exact IH].
Qed.

End StepRules.

Lemma appended_refl good (w : World) : appended good w w.
Proof. split; [reflexivity|]. exists []. now rewrite app_nil_r. Qed.

Lemma appended_trans good (w1 w2 w3 : World) :
  appended good w1 w2 -> appended good w2 w3 -> appended good w1 w3.
Proof.
  intros (Hclock & extra & Hrows & Hgood) (Hclock' & extra' & Hrows' & Hgood').
  split; [congruence|]. exists (extra ++ extra').
  rewrite Hrows', Hrows, app_assoc. split; [reflexivity|].
  apply Forall_app. split; [assumption|]. now rewrite <- Hclock.
Qed.

Lemma Quiet_throw {A} (e : Error) : Quiet (@throw A e).
Proof. intros w. split; reflexivity. Qed.

Lemma Quiet_appended {A} good (m : M A) : Quiet m -> Steps (appended good) m.
Proof.
  intros Hquiet w. destruct (Hquiet w) as [Hclock Hrows].
  split; [assumption|]. exists []. rewrite app_nil_r. split; [assumption|constructor].
Qed.

(** *** The rows a pass creates *)

Lemma schedulePlatform_appends parse c existing plat :
  Steps (appended scheduledBy) (schedulePlatform parse c existing plat).
Proof.
  intros w. split; [apply schedulePlatform_clock|].
  destruct (schedulePlatform_rows parse c existing plat w)
    as [Hsame | (row & Hrows & _ & _ & Htime & Hfresh)].
  - exists []. rewrite app_nil_r. split; [assumption | constructor].
  - exists [row]. split; [assumption|]. constructor; [|constructor].
    split; [assumption|]. exists (S (dateReads w)). assumption.
Qed.

Lemma checkAndSchedulePosts_appends parse :
  Steps (appended scheduledBy) (checkAndSchedulePosts parse).
Proof.
  unfold checkAndSchedulePosts.
  apply Steps_bind; [apply appended_trans | |].
  - apply Quiet_appended. apply Quiet_throw.
  - intros activeCampaigns.
    apply Steps_forEachM; [apply appended_refl | apply appended_trans |].
    intros c.
    apply Steps_bind; [apply appended_trans | |].
    + apply Quiet_appended. apply Quiet_throw.
    + intros existing.
      apply Steps_forEachM; [apply appended_refl | apply appended_trans |].
      intros plat. apply schedulePlatform_appends.
Qed.

Lemma checkAndSchedulePosts_fresh parse (w : World) :
  exists extra,
    adPostRows (snd (checkAndSchedulePosts parse w)) = adPostRows w ++ extra
    /\ Forall freshlyScheduled extra.
Proof.
  destruct (checkAndSchedulePosts_appends parse w) as (_ & extra & Hrows & Hgood).
  exists extra. split; [assumption|].
  apply (Forall_impl _ (fun row H => proj1 H) Hgood).
Qed.

(** *** The window test *)



(** C5: whenever an iteration of the scheduling loop stores a new post, the
    time of that post follows from the clock reading [t] taken for it: 09:00
    of the same day when the hour of [t] is below 9, 09:00 of the next day
    when it is 18 or more, and otherwise the next full hour of the same day;
    minutes, seconds and milliseconds are zero in all three cases.  The
    iteration does store a post when no existing post covers the platform
    and the insert succeeds.  So every post that a run of
    [checkAndSchedulePosts] adds has its time by this rule from one of the
    clock readings. *)
Theorem new_post_time_rule
    (parse : Z -> option Z) (c : Campaign) (existing : list AdPost)
    (plat : SocialPlatform) (w : World) :
  (forall row,
     adPostRows (snd (schedulePlatform parse c existing plat w))
     = adPostRows w ++ [row] ->
     platform row = platformName plat
     /\ postTimeRule (clockAt w (S (dateReads w))) row)
  /\
  ((forall post, In post existing ->
      coversPlatform parse plat (clockAt w (dateReads w)) post = false) ->
   dbFails w (dbOps w) = false ->
   exists row,
     adPostRows (snd (schedulePlatform parse c existing plat w))
     = adPostRows w ++ [row])
  /\
  (exists extra,
     adPostRows (snd (checkAndSchedulePosts parse w)) = adPostRows w ++ extra
     /\ Forall (fun row => exists n, postTimeRule (clockAt w n) row) extra).
Proof.
  split; [|split].
  - intros row Hrow.
    destruct (schedulePlatform_rows parse c existing plat w)
      as [Hsame | (row' & Hrows & Hplat & _ & Htime & _)].
    + rewrite Hsame in Hrow. apply (f_equal (@List.length _)) in Hrow.
      rewrite length_app in Hrow. simpl in Hrow. lia.
    + rewrite Hrows in Hrow. apply app_inj_tail in Hrow. destruct Hrow as [_ ->].
      split; [assumption|]. unfold postTimeRule. rewrite Htime.
      apply choosePostTime_onTheHour.
  - intros Hnone Hok.
    destruct (schedulePlatform_creates parse c existing plat w Hnone Hok)
      as [_ Hlen].
    destruct (schedulePlatform_rows parse c existing plat w)
      as [Hsame | (row & Hrows & _)].
    + rewrite Hsame in Hlen. lia.
    + exists row. assumption.
  - destruct (checkAndSchedulePosts_appends parse w)
      as (_ & extra & Hrows & Hgood).
    exists extra. split; [assumption|].
    revert Hgood. apply Forall_impl. intros row (_ & n & Htime).
    exists n. unfold postTimeRule. rewrite Htime.
    apply choosePostTime_onTheHour.
Qed.

Lemma new_post_time_rule_witness :
  exists row,
    adPostRows (snd (schedulePlatform parseISO_toString internships [] twitter
                       (worldAt (clockTime 8 59) [] false)))
    = [row]
    /\ postTime row = clockTime 9 0
    /\ onTheHour (postTime row) sampleDay 9.
Proof.
  destruct (new_post_time_rule parseISO_toString internships [] twitter
              (worldAt (clockTime 8 59) [] false)) as (Hrule & Hcreates & _).
  destruct Hcreates as [row Hrow].
  - intros post [].
  - reflexivity.
  - exists row. split; [exact Hrow|].
    destruct (Hrule row Hrow) as [_ (Hearly & _ & _)].
    split.
    + vm_compute in Hrow. injection Hrow as <-. reflexivity.
    + apply Hearly. vm_compute. reflexivity.
Defined.

(** ** Performance aggregator *)

(** *** Numbers: no overflow in a percentage *)

Lemma digits2_pos_size (p : positive) : digits2_pos p = Pos.size p.
Proof.
  induction p as [p IH|p IH|]; simpl;
    [now rewrite IH | now rewrite IH | reflexivity].
Qed.

Lemma Zdigits2_log2 (m : Z) : 0 < m -> Zdigits2 m = Z.log2 m + 1.
Proof.
  destruct m as [|p|p]; try lia. intros _. simpl Zdigits2.
  rewrite digits2_pos_size.
  destruct p as [p|p|]; simpl; try reflexivity; rewrite Pos.add_1_r; reflexivity.
Qed.

Lemma Zdigits2_nonneg (m : Z) : 0 <= Zdigits2 m.
Proof. destruct m; simpl; lia. Qed.

Lemma Zdigits2_le (a b : Z) : 0 <= a <= b -> Zdigits2 a <= Zdigits2 b.
Proof.
  intros [Ha Hab]. destruct (Z.eq_dec a 0) as [->|Hne].
  - apply Zdigits2_nonneg.
  - rewrite !Zdigits2_log2 by lia.
    pose proof (Z.log2_le_mono a b Hab). lia.
Qed.

Lemma Zdigits2_succ (a : Z) : 0 <= a -> Zdigits2 (a + 1) <= Zdigits2 a + 1.
Proof.
  intros Ha. destruct (Z.eq_dec a 0) as [->|Hne]; [simpl; lia|].
  rewrite !Zdigits2_log2 by lia.
  pose proof (Z.log2_succ_le a). unfold Z.succ in *. lia.
Qed.

Lemma Zdigits2_shiftl (a n : Z) :
  0 < a -> 0 <= n -> Zdigits2 (Z.shiftl a n) = Zdigits2 a + n.
Proof.
  intros Ha Hn.
  assert (0 < Z.shiftl a n).
  { rewrite Z.shiftl_mul_pow2 by lia.
    apply Z.mul_pos_pos; [lia|]. apply Z.pow_pos_nonneg; lia. }
  rewrite !Zdigits2_log2 by lia. rewrite Z.log2_shiftl by lia. lia.
Qed.

Lemma Zdigits2_mul (a b : Z) :
  0 < a -> 0 < b -> Zdigits2 (a * b) <= Zdigits2 a + Zdigits2 b.
Proof.
  intros Ha Hb. rewrite !Zdigits2_log2 by nia.
  pose proof (Z.log2_mul_above a b). lia.
Qed.

Lemma shr_1_bounds (mrs : shr_record) :
  0 <= shr_m mrs -> 0 <= shr_m (shr_1 mrs) <= shr_m mrs.
Proof.
  destruct mrs as [m r s]. simpl. intros Hm.
  destruct m as [|p|p]; [simpl; lia| |lia].
  destruct p; simpl; lia.
Qed.

Lemma iter_shr_1_bounds (p : positive) : forall mrs,
  0 <= shr_m mrs -> 0 <= shr_m (iter_pos shr_1 p mrs) <= shr_m mrs.
Proof.
  induction p as [p IH|p IH|]; intros mrs Hm; simpl.
  - pose proof (shr_1_bounds mrs Hm) as H1.
    pose proof (IH (shr_1 mrs) (proj1 H1)) as H2.
    pose proof (IH _ (proj1 H2)) as H3. lia.
  - pose proof (IH mrs Hm) as H2.
    pose proof (IH _ (proj1 H2)) as H3. lia.
  - apply shr_1_bounds, Hm.
Qed.

Lemma shr_m_of_loc (m : Z) (l : SpecFloat.location) :
  shr_m (shr_record_of_loc m l) = m.
Proof. destruct l as [|[]]; reflexivity. Qed.

Lemma fexp_unfold (e : Z) : fexp 53 1024 e = Z.max (e - 53) (-1074).
Proof. reflexivity. Qed.

Lemma shr_fexp_bounds (m e : Z) (l : SpecFloat.location) :
  0 <= m ->
  0 <= shr_m (fst (shr_fexp 53 1024 m e l)) <= m
  /\ snd (shr_fexp 53 1024 m e l) = Z.max e (fexp 53 1024 (Zdigits2 m + e)).
Proof.
  intros Hm. unfold shr_fexp, shr.
  destruct (fexp 53 1024 (Zdigits2 m + e) - e) as [|p|p] eqn:Hn; cbn [fst snd].
  - rewrite shr_m_of_loc. lia.
  - pose proof (iter_shr_1_bounds p (shr_record_of_loc m l)) as H.
    rewrite shr_m_of_loc in H. split; [apply H, Hm | lia].
  - rewrite shr_m_of_loc. lia.
Qed.

Lemma round_nearest_even_bounds (m : Z) (l : SpecFloat.location) :
  m <= round_nearest_even m l <= m + 1.
Proof. destruct l as [|[]]; simpl; try lia. destruct (Z.even m); lia. Qed.

(** Rounding a mantissa of at most [D] digits at an exponent of at most [X]
    gives a zero or a finite number, and no infinity, as long as the bound
    on the resulting exponent stays within the largest exponent, 971. *)
Lemma binary_round_aux_bounds (sx : bool) (mx ex : Z) (lx : SpecFloat.location)
    (D X : Z) :
  0 <= mx -> Zdigits2 mx <= D -> ex <= X ->
  Z.max (Z.max X (D + X - 53)) (-1074) + Z.max 0 (D - 52) <= 971 ->
  match binary_round_aux 53 1024 sx mx ex lx with
  | S754_zero _ => True
  | S754_finite _ m e =>
      Zdigits2 (Zpos m) <= D + 1
      /\ ex <= e <= Z.max (Z.max X (D + X - 53)) (-1074) + Z.max 0 (D - 52)
  | S754_infinity _ | S754_nan => False
  end.
Proof.
  intros Hmx HD HX HB. unfold binary_round_aux.
  pose proof (shr_fexp_bounds mx ex lx Hmx) as [Hm1 He1].
  destruct (shr_fexp 53 1024 mx ex lx) as [mrs1 e1]. cbn [fst snd] in Hm1, He1.
  pose proof (round_nearest_even_bounds (shr_m mrs1) (loc_of_shr_record mrs1)) as Hr.
  set (m1 := round_nearest_even (shr_m mrs1) (loc_of_shr_record mrs1)) in *.
  assert (Hm1' : 0 <= m1) by lia.
  pose proof (shr_fexp_bounds m1 e1 loc_Exact Hm1') as [Hm2 He2].
  destruct (shr_fexp 53 1024 m1 e1 loc_Exact) as [mrs2 e2]. cbn [fst snd] in Hm2, He2.
  assert (Hd1 : Zdigits2 m1 <= D + 1).
  { pose proof (Zdigits2_le m1 (mx + 1)). pose proof (Zdigits2_succ mx Hmx). lia. }
  rewrite fexp_unfold in He1, He2.
  pose proof (Zdigits2_nonneg mx). pose proof (Zdigits2_nonneg m1).
  destruct (shr_m mrs2) as [|m|m] eqn:Hm; [exact I| |lia].
  assert (He : e2 <= Z.max (Z.max X (D + X - 53)) (-1074) + Z.max 0 (D - 52)) by lia.
  destruct (Z.leb_spec e2 (1024 - 53)) as [_|Hbig]; [|lia].
  split; [|lia].
  pose proof (Zdigits2_le (Zpos m) m1). lia.
Qed.

(** A mantissa that is already in place is left as it is. *)
Lemma binary_round_aux_canonical (sx : bool) (m : positive) (e : Z) :
  fexp 53 1024 (Zdigits2 (Zpos m) + e) <= e -> e <= 971 ->
  binary_round_aux 53 1024 sx (Zpos m) e loc_Exact = S754_finite sx m e.
Proof.
  intros Hcanon He.
  assert (Hshr : shr_fexp 53 1024 (Zpos m) e loc_Exact
                 = ({| shr_m := Zpos m; shr_r := false; shr_s := false |}, e)).
  { unfold shr_fexp, shr.
    destruct (fexp 53 1024 (Zdigits2 (Zpos m) + e) - e) eqn:Hn;
      try reflexivity. lia. }
  unfold binary_round_aux. rewrite Hshr.
  cbn [shr_m loc_of_shr_record round_nearest_even].
  rewrite Hshr. cbn [shr_m].
  destruct (Z.leb_spec e (1024 - 53)); [reflexivity | lia].
Qed.

Lemma Zpos_iter_xO (p d : positive) :
  Zpos (Pos.iter xO p d) = Z.shiftl (Zpos p) (Zpos d).
Proof.
  simpl. apply (Pos.iter_swap_gen _ _ Zpos xO (Z.mul 2)). reflexivity.
Qed.

(** An integer below 2^53 in absolute value converts exactly: to a mantissa
    of 53 digits at an exponent from -52 to 0. *)
Lemma toNumber_exact (z : Z) :
  z <> 0 -> safeInteger z ->
  exists m e,
    toNumber z = S754_finite (z <? 0) m e
    /\ Zdigits2 (Zpos m) = 53 /\ -52 <= e <= 0.
Proof.
  intros Hz Hsmall. unfold safeInteger in Hsmall.
  assert (Hgen : forall (s : bool) (p : positive), Zpos p < 2 ^ 53 ->
            exists m e, binary_round 53 1024 s p 0 = S754_finite s m e
                        /\ Zdigits2 (Zpos m) = 53 /\ -52 <= e <= 0).
  { intros s p Hp.
    assert (Hd : 1 <= Zdigits2 (Zpos p) <= 53).
    { rewrite Zdigits2_log2 by lia.
      pose proof (Z.log2_nonneg (Zpos p)).
      assert (Z.log2 (Zpos p) < 53) by (apply Z.log2_lt_pow2; lia). lia. }
    unfold binary_round, shl_align. rewrite fexp_unfold.
    change (Zpos (digits2_pos p)) with (Zdigits2 (Zpos p)).
    destruct (Z.max (Zdigits2 (Zpos p) + 0 - 53) (-1074) - 0) as [|d|d] eqn:Hn.
    - exists p, 0. split; [|lia].
      apply binary_round_aux_canonical; [rewrite fexp_unfold|]; lia.
    - lia.
    - assert (Hdig : Zdigits2 (Zpos (Pos.iter xO p d)) = 53).
      { rewrite Zpos_iter_xO, Zdigits2_shiftl by lia. lia. }
      exists (Pos.iter xO p d), (Z.max (Zdigits2 (Zpos p) + 0 - 53) (-1074)).
      split; [|lia].
      apply binary_round_aux_canonical; [rewrite fexp_unfold|]; lia. }
  unfold toNumber, binary_normalize.
  destruct z as [|p|p]; [contradiction| |]; apply Hgen; simpl in Hsmall; lia.
Qed.

(** The quotient of two such numbers is a zero or a finite number. *)
Lemma divide_integers (sx sy : bool) (mx my : positive) (ex ey : Z) :
  Zdigits2 (Zpos mx) = 53 -> -52 <= ex <= 0 ->
  Zdigits2 (Zpos my) = 53 -> -52 <= ey <= 0 ->
  match divide (S754_finite sx mx ex) (S754_finite sy my ey) with
  | S754_zero _ => True
  | S754_finite _ m e => Zdigits2 (Zpos m) <= 107 /\ e <= 106
  | S754_infinity _ | S754_nan => False
  end.
Proof.
  intros Hdx Hex Hdy Hey. unfold divide, SFdiv, SFdiv_core_binary.
  rewrite Hdx, Hdy, fexp_unfold.
  replace (Z.min (Z.max (53 + ex - (53 + ey) - 53) (-1074)) (ex - ey))
    with (ex - ey - 53) by lia.
  replace (ex - ey - (ex - ey - 53)) with 53 by lia.
  pose proof (Z_div_mod (Z.shiftl (Zpos mx) 53) (Zpos my) ltac:(lia)) as Hdiv.
  destruct (Z.div_eucl (Z.shiftl (Zpos mx) 53) (Zpos my)) as [q r].
  destruct Hdiv as [Hq Hr].
  assert (Hpos : 0 < Z.shiftl (Zpos mx) 53).
  { rewrite Z.shiftl_mul_pow2 by lia. lia. }
  assert (Hq0 : 0 <= q) by nia.
  assert (Hqle : q <= Z.shiftl (Zpos mx) 53) by nia.
  assert (HD : Zdigits2 q <= 106).
  { pose proof (Zdigits2_le q _ (conj Hq0 Hqle)) as H.
    rewrite Zdigits2_shiftl in H by lia. lia. }
  pose proof (binary_round_aux_bounds (xorb sx sy) q (ex - ey - 53)
                (new_location (Zpos my) r) 106 (-1) Hq0 HD
                ltac:(lia) ltac:(lia)) as H.
  destruct (binary_round_aux 53 1024 (xorb sx sy) q (ex - ey - 53)
              (new_location (Zpos my) r)); try exact H.
  lia.
Qed.

(** The product of such a quotient and 100 is a zero or a finite number. *)
Lemma times_hundred (s : bool) (m : positive) (e : Z) :
  Zdigits2 (Zpos m) <= 107 -> e <= 106 ->
  isFinite (times (S754_finite s m e) (toNumber 100)) = true.
Proof.
  intros Hd He.
  change (toNumber 100) with (S754_finite false 7036874417766400 (-46)).
  unfold times, SFmul.
  assert (HD : Zdigits2 (Zpos (m * 7036874417766400)) <= 160).
  { rewrite Pos2Z.inj_mul.
    pose proof (Zdigits2_mul (Zpos m) (Zpos 7036874417766400)
                  ltac:(lia) ltac:(lia)) as H.
    change (Zdigits2 (Zpos 7036874417766400)) with 53 in H. lia. }
  pose proof (binary_round_aux_bounds (xorb s false)
                (Zpos (m * 7036874417766400)) (e + -46) loc_Exact 160 60
                ltac:(lia) HD ltac:(lia) ltac:(lia)) as H.
  destruct (binary_round_aux 53 1024 (xorb s false)
              (Zpos (m * 7036874417766400)) (e + -46) loc_Exact);
    try reflexivity; contradiction.
Qed.

(** For counts that numbers hold exactly, the percentage is finite: neither
    [NaN] nor an infinity. *)
Lemma percentage_finite (num den : Z) :
  safeInteger num -> safeInteger den ->
  isFinite (percentage num den) = true.
Proof.
  intros Hnum Hden. unfold percentage.
  destruct (Z.ltb_spec 0 den) as [Hpos|_]; [|reflexivity].
  destruct (toNumber_exact den) as (my & ey & -> & Hdy & Hey);
    [lia | assumption |].
  destruct (Z.eq_dec num 0) as [->|Hne].
  - reflexivity.
  - destruct (toNumber_exact num Hne Hnum) as (mx & ex & -> & Hdx & Hex).
    pose proof (divide_integers (num <? 0) (den <? 0) mx my ex ey
                  Hdx Hex Hdy Hey) as H.
    destruct (divide _ _) as [s| | |s m e]; try contradiction.
    + reflexivity.
    + apply times_hundred; lia.
Qed.

Lemma percentage_zeroGuarded (num den : Z) :
  zeroGuarded (percentage num den) num den.
Proof.
  unfold zeroGuarded. split; [|split].
  - intros Hden. unfold percentage.
    destruct (Z.ltb_spec 0 den); [reflexivity | lia].
  - intros Hden. unfold percentage.
    destruct (Z.ltb_spec 0 den); [lia | reflexivity].
  - apply percentage_finite.
Qed.

Lemma withRates_zeroGuarded (a : AdPostAnalytics) :
  zeroGuarded (pa_ctr (withRates a)) (pa_clicks (withRates a))
              (pa_impressions (withRates a))
  /\ zeroGuarded (pa_conversionRate (withRates a))
                 (pa_leadsCaptured (withRates a)) (pa_clicks (withRates a)).
Proof. split; apply percentage_zeroGuarded. Qed.

Lemma getCampaignById_returns (cid : Z) (w : World) :
  exists found w', getCampaignById cid w = (Ok found, w').
Proof.
  unfold getCampaignById. run.
  destruct (dbFails w (dbOps w)); eexists; eexists; reflexivity.
Qed.

Lemma getCampaignPerformance_returns (cid : Z) (w : World) :
  exists result w', getCampaignPerformance cid w = (Ok result, w').
Proof.
  unfold getCampaignPerformance.
  destruct (getCampaignById_returns cid w) as (found & w1 & Hfound).
  cbv [tryCatch bind ret]. rewrite Hfound.
  destruct found as [c|]; [|eexists; eexists; reflexivity].
  destruct (getAllAdPosts (Some cid) w1) as [[posts|e] w2];
    [|eexists; eexists; reflexivity].
  destruct (List.length posts =? 0)%nat; eexists; eexists; reflexivity.
Qed.

(** C6: when the lookup of the campaign returns it and the fetch of its posts
    returns none, [getCampaignPerformance] returns a result, not an error
    and not [null]: no posts, all sums and both rates zero, and a platform
    breakdown of exactly the five platform entries, every one of them with
    zero metrics and zero rates. *)
Theorem performance_without_posts
    (cid : Z) (c : Campaign) (w w1 w2 : World) :
  getCampaignById cid w = (Ok (Some c), w1) ->
  getAllAdPosts (Some cid) w1 = (Ok [], w2) ->
  exists perf,
    getCampaignPerformance cid w = (Ok (Some perf), w2)
    /\ campaign perf = c
    /\ totalPosts perf = 0
    /\ totalImpressions perf = 0 /\ totalClicks perf = 0 /\ totalLeads perf = 0
    /\ ctr perf = S754_zero false /\ conversionRate perf = S754_zero false
    /\ map fst (platformBreakdown perf) = platformKeys
    /\ Forall (fun entry =>
                 snd entry = mkAnalytics 0 0 0 (S754_zero false) (S754_zero false))
              (platformBreakdown perf).
Proof.
  intros Hfound Hposts.
  unfold getCampaignPerformance. cbv [tryCatch bind ret].
  rewrite Hfound, Hposts. cbn [List.length Nat.eqb].
  eexists. split; [reflexivity|].
  cbn. repeat split. repeat constructor.
Qed.

Lemma performance_without_posts_witness :
  exists perf,
    fst (getCampaignPerformance 1 (worldAt (clockTime 10 30) [] false))
    = Ok (Some perf)
    /\ totalPosts perf = 0
    /\ map fst (platformBreakdown perf) = platformKeys.
Proof.
  destruct (performance_without_posts 1 internships
              (worldAt (clockTime 10 30) [] false)
              (snd (getCampaignById 1 (worldAt (clockTime 10 30) [] false)))
              (snd (getCampaignPerformance 1 (worldAt (clockTime 10 30) [] false))))
    as (perf & Hrun & _ & Hposts & _ & _ & _ & _ & _ & Hkeys & _).
  - reflexivity.
  - reflexivity.
  - exists perf. rewrite Hrun. repeat split; assumption.
Defined.

(** At the table: for an id other than 0, with both reads succeeding, the
    hypotheses of [performance_without_posts] hold as soon as the campaign
    row exists and no row of [adPosts] belongs to it. *)
Lemma getAllAdPosts_none (cid : Z) (w : World) :
  cid <> 0 ->
  dbFails w (dbOps w) = false ->
  (forall p, In p (adPostRows w) -> campaignId p <> cid) ->
  fst (getAllAdPosts (Some cid) w) = Ok [].
Proof.
  intros Hcid Hok Hnone. unfold getAllAdPosts.
  destruct (Z.eqb_spec cid 0) as [|_]; [contradiction|]. cbn [negb].
  run. rewrite Hok. cbn [fst].
  replace (filter _ (adPostRows w)) with (@nil AdPost); [reflexivity|].
  symmetry. induction (adPostRows w) as [|p rows IH]; [reflexivity|].
  simpl. destruct (Z.eqb_spec (campaignId p) cid) as [Heq|_].
  - exfalso. apply (Hnone p); [now left | assumption].
  - apply IH. intros q Hq. apply Hnone. now right.
Qed.

(** The id 0 is falsy, so for it [getAllAdPosts] reads the whole table. *)
Example getAllAdPosts_of_id_0 :
  fst (getAllAdPosts (Some 0)
         (worldAt (clockTime 10 30)
                  [samplePost 7 "facebook" (clockTime 15 0) "scheduled"] false))
  = Ok [samplePost 7 "facebook" (clockTime 15 0) "scheduled"].
Proof. reflexivity. Qed.

Lemma breakdown_zeroGuarded (b : Breakdown) (key : string) (a : AdPostAnalytics) :
  In (key, a) (map (fun entry => (fst entry, withRates (snd entry))) b) ->
  zeroGuarded (pa_ctr a) (pa_clicks a) (pa_impressions a)
  /\ zeroGuarded (pa_conversionRate a) (pa_leadsCaptured a) (pa_clicks a).
Proof.
  intros Hin. apply in_map_iff in Hin. destruct Hin as ([k a0] & Heq & _).
  injection Heq as _ <-. apply withRates_zeroGuarded.
Qed.

(** C7, as the code has it: [getCampaignPerformance] always returns, and in
    every performance it returns the overall click-through rate is exactly 0
    when [totalImpressions] is zero, and when [totalImpressions] is positive
    it is the number [totalClicks / totalImpressions], rounded to a double,
    multiplied by 100 and rounded again; it is a finite number, neither
    [NaN] nor an infinity, when the two totals are integers below 2^53.  The
    overall conversion rate obeys the same rule on [totalLeads] and
    [totalClicks], and the two rates of every platform entry obey it on the
    entry's own impressions, clicks and leads. *)
Theorem rates_are_zero_guarded (cid : Z) (w : World) :
  (exists result, fst (getCampaignPerformance cid w) = Ok result)
  /\ forall perf,
       fst (getCampaignPerformance cid w) = Ok (Some perf) ->
       zeroGuarded (ctr perf) (totalClicks perf) (totalImpressions perf)
       /\ zeroGuarded (conversionRate perf) (totalLeads perf) (totalClicks perf)
       /\ forall key a,
            In (key, a) (platformBreakdown perf) ->
            zeroGuarded (pa_ctr a) (pa_clicks a) (pa_impressions a)
            /\ zeroGuarded (pa_conversionRate a) (pa_leadsCaptured a)
                           (pa_clicks a).
Proof.
  split.
  - destruct (getCampaignPerformance_returns cid w) as (result & w' & Hrun).
    exists result. now rewrite Hrun.
  - intros perf. unfold getCampaignPerformance.
    destruct (getCampaignById_returns cid w) as (found & w1 & Hfound).
    cbv [tryCatch bind ret]. rewrite Hfound.
    destruct found as [c|]; [|discriminate].
    destruct (getAllAdPosts (Some cid) w1) as [[posts|e] w2]; [|discriminate].
    destruct (List.length posts =? 0)%nat; cbn [fst]; intros Hperf;
      injection Hperf as <-; cbn [ctr conversionRate totalClicks totalImpressions
                                  totalLeads platformBreakdown].
    + split; [|split].
      * apply (percentage_zeroGuarded 0 0).
      * apply (percentage_zeroGuarded 0 0).
      * intros key a Hin.
        apply (breakdown_zeroGuarded zeroBreakdown key a).
        exact Hin.
    + split; [apply percentage_zeroGuarded|].
      split; [apply percentage_zeroGuarded|].
      intros key a Hin. apply (breakdown_zeroGuarded _ key a Hin).
Qed.

Lemma rates_are_zero_guarded_witness :
  exists perf,
    fst (getCampaignPerformance 1
           (worldAt (clockTime 10 30)
                    [measuredPost 7 "facebook" "posted" 100 10 2;
                     measuredPost 8 "facebook" "posted" 50 5 1] false))
    = Ok (Some perf)
    /\ zeroGuarded (ctr perf) (totalClicks perf) (totalImpressions perf)
    /\ totalClicks perf = 15 /\ totalImpressions perf = 150.
Proof.
  eexists. split; [reflexivity|]. split; [|split; reflexivity].
  apply (proj2 (rates_are_zero_guarded 1
                  (worldAt (clockTime 10 30)
                           [measuredPost 7 "facebook" "posted" 100 10 2;
                            measuredPost 8 "facebook" "posted" 50 5 1] false))).
  reflexivity.
Defined.

(** C7 fails as stated: with 7 clicks on 100 impressions the click-through
    rate is not [7 / 100 x 100 = 7].  The quotient 0.07 is not a double; the
    nearest double times 100 lies between two doubles and is rounded up, to
    7881299347898369 x 2^-50 = 7.00000000000000088817841970012523233890533447265625,
    the double next above 7. *)
Lemma seven_clicks_on_a_hundred_impressions :
  let w := worldAt (clockTime 10 30)
                   [measuredPost 7 "facebook" "posted" 100 7 0] false in
  exists perf,
    fst (getCampaignPerformance 1 w) = Ok (Some perf)
    /\ totalClicks perf = 7 /\ totalImpressions perf = 100
    /\ ctr perf = S754_finite false 7881299347898369 (-50)
    /\ toNumber 7 = S754_finite false 7881299347898368 (-50)
    /\ ctr perf <> toNumber 7
    /\ valueOf (ctr perf) = Some (7881299347898369 # 1125899906842624)
    /\ ~ (7881299347898369 # 1125899906842624 == exactPercentage 7 100)%Q.
Proof.
  cbv zeta. eexists. split; [reflexivity|].
  split; [reflexivity|]. split; [reflexivity|].
  split; [reflexivity|]. split; [reflexivity|].
  split; [discriminate|]. split; [reflexivity|].
  intros Heq. vm_compute in Heq. discriminate Heq.
Qed.

(** On these counts the numbers of the embedding are the doubles of the
    machine. *)
Example percentage_on_primitive_floats :
  onPrimitiveFloats 7 100 = percentage 7 100
  /\ onPrimitiveFloats 15 150 = percentage 15 150
  /\ onPrimitiveFloats 3 15 = percentage 3 15
  /\ onPrimitiveFloats 1 3 = percentage 1 3.
Proof. repeat split. Qed.

(** The aggregation example of the specification: two facebook posts. *)
Example performance_of_two_facebook_posts :
  exists perf,
    fst (getCampaignPerformance 1
           (worldAt (clockTime 10 30)
                    [measuredPost 7 "facebook" "posted" 100 10 2;
                     measuredPost 8 "facebook" "posted" 50 5 1] false))
    = Ok (Some perf)
    /\ totalPosts perf = 2
    /\ totalImpressions perf = 150 /\ totalClicks perf = 15 /\ totalLeads perf = 3
    /\ ctr perf = toNumber 10 /\ conversionRate perf = toNumber 20
    /\ (exists a, bucket "facebook" (platformBreakdown perf) = Some a
                  /\ pa_impressions a = 150 /\ pa_clicks a = 15
                  /\ pa_leadsCaptured a = 3
                  /\ pa_ctr a = toNumber 10 /\ pa_conversionRate a = toNumber 20)
    /\ bucket "instagram" (platformBreakdown perf) = Some zeroAnalytics
    /\ bucket "twitter" (platformBreakdown perf) = Some zeroAnalytics
    /\ bucket "whatsapp" (platformBreakdown perf) = Some zeroAnalytics
    /\ bucket "telegram" (platformBreakdown perf) = Some zeroAnalytics.
Proof.
  eexists. split; [reflexivity|]. cbn.
  repeat split; try reflexivity.
  eexists. repeat split; reflexivity.
Qed.

(** ** Persistence failures *)

Lemma Propagating_ret {A} (a : A) : Propagating (ret a).
Proof.
  intros w. cbn. repeat split; [lia|].
  intros (n & Hn & _). lia.
Qed.

Lemma Propagating_newDate : Propagating newDate.
Proof.
  intros w. unfold newDate, faultDuring. cbn. repeat split; [lia|].
  intros (n & Hn & _). lia.
Qed.

Lemma Propagating_bind {A B} (m : M A) (k : A -> M B) :
  Propagating m -> (forall a, Propagating (k a)) -> Propagating (bind m k).
Proof.
  intros Hm Hk w. unfold bind.
  destruct (Hm w) as (Hplan & Hops & Hthrow).
  destruct (m w) as [[a|e] w1]; cbn [fst snd] in *.
  - destruct (Hk a w1) as (Hplan' & Hops' & Hthrow').
    split; [congruence|]. split; [lia|].
    intros (n & Hn & Hfault).
    destruct (Nat.lt_ge_cases n (dbOps w1)) as [Hlt|Hge].
    + destruct Hthrow as [e He]; [exists n; split; [lia | assumption]|].
      discriminate He.
    + apply Hthrow'. exists n. split; [lia|]. now rewrite Hplan.
  - split; [assumption|]. split; [assumption|].
    intros _. eexists; reflexivity.
Qed.

Lemma Propagating_forEachM {A} (body : A -> M unit) (xs : list A) :
  (forall x, Propagating (body x)) -> Propagating (forEachM body xs).
Proof.
  intros Hbody. induction xs as [|x xs IH]; simpl.
  - apply Propagating_ret.
  - apply Propagating_bind; [apply Hbody | intros _; exact IH].
Qed.

Lemma Propagating_throw {A} (e : Error) : Propagating (@throw A e).
Proof.
  intros w. cbn. repeat split; [lia|]. intros _. eexists; reflexivity.
Qed.

Lemma Propagating_createAdPost (adPost : AdPostInsert) :
  Propagating (createAdPost adPost).
Proof.
  intros w.
  destruct (dbFails w (dbOps w)) eqn:Hplan.
  - destruct (createAdPost_fails adPost w Hplan) as (w' & -> & _ & Hops & Hsame).
    cbn [fst snd]. split; [assumption|]. split; [lia|].
    intros _. eexists; reflexivity.
  - destruct (createAdPost_ok adPost w Hplan) as (w' & -> & _ & Hops & Hsame & _).
    cbn [fst snd]. split; [assumption|]. split; [lia|].
    intros (n & Hn & Hfault). assert (n = dbOps w) by lia. congruence.
Qed.

Lemma Propagating_schedulePlatform parse c existing plat :
  Propagating (schedulePlatform parse c existing plat).
Proof.
  unfold schedulePlatform.
  apply Propagating_bind; [apply Propagating_newDate|]. intros now.
  cbv zeta. destruct (List.length _ =? 0)%nat; [|apply Propagating_ret].
  apply Propagating_bind; [apply Propagating_newDate|]. intros t.
  apply Propagating_bind; [apply Propagating_createAdPost|]. intros _.
  apply Propagating_ret.
Qed.

Lemma Propagating_checkAndSchedulePosts parse :
  Propagating (checkAndSchedulePosts parse).
Proof.
  unfold checkAndSchedulePosts.
  apply Propagating_bind.
  - apply Propagating_throw.
  - intros activeCampaigns. apply Propagating_forEachM. intros c.
    apply Propagating_bind.
    + apply Propagating_throw.
    + intros existing. apply Propagating_forEachM. intros plat.
      apply Propagating_schedulePlatform.
Qed.

(** The one statement of an iteration is the insert, and [createAdPost]
    rethrows its failure under a message of its own. *)
Lemma schedulePlatform_fault parse c existing plat (w : World) :
  faultDuring w (snd (schedulePlatform parse c existing plat w)) ->
  fst (schedulePlatform parse c existing plat w)
  = Throw (JsError "Failed to create ad post").
Proof.
  rewrite schedulePlatform_unfold. unfold faultDuring.
  destruct (List.length _ =? 0)%nat; run.
  - destruct (dbFails w (dbOps w)) eqn:Hplan; run; [reflexivity|].
    intros (n & Hn & Hfault). assert (n = dbOps w) by lia. congruence.
  - intros (n & Hn & _). lia.
Qed.

Lemma getCampaignPerformance_fault (cid : Z) (w : World) :
  faultDuring w (snd (getCampaignPerformance cid w)) ->
  fst (getCampaignPerformance cid w) = Ok None.
Proof.
  unfold getCampaignPerformance, getCampaignById, getAllAdPosts, faultDuring.
  run.
  destruct (dbFails w (dbOps w)) eqn:Hfirst; run; [reflexivity|].
  destruct (hd_error _) as [c|]; run.
  - destruct (negb (cid =? 0)); run;
      (destruct (dbFails w (S (dbOps w))) eqn:Hsecond; run; [reflexivity|]);
      (destruct (List.length _ =? 0)%nat; run;
       intros (n & Hn & Hfault);
       assert (Hcase : n = dbOps w \/ n = S (dbOps w)) by lia;
       destruct Hcase; congruence).
  - intros (n & Hn & Hfault). assert (n = dbOps w) by lia. congruence.
Qed.

(** C8, as the code has it: the scheduling pass swallows no persistence
    failure, it throws whenever a database statement it issued failed; the
    statement of an iteration of its platform loop is the insert, whose
    failure leaves the iteration as the error "Failed to create ad post".
    The performance aggregator never throws: it always returns a normal
    result, and when one of its statements failed that result is [null],
    the value it also returns for a campaign that does not exist. *)
Theorem scheduler_propagates_aggregator_returns_null (parse : Z -> option Z) :
  (forall w,
     faultDuring w (snd (checkAndSchedulePosts parse w)) ->
     exists e, fst (checkAndSchedulePosts parse w) = Throw e)
  /\ (forall c existing plat w,
        faultDuring w (snd (schedulePlatform parse c existing plat w)) ->
        fst (schedulePlatform parse c existing plat w)
        = Throw (JsError "Failed to create ad post"))
  /\ (forall cid w, exists result, fst (getCampaignPerformance cid w) = Ok result)
  /\ (forall cid w,
        faultDuring w (snd (getCampaignPerformance cid w)) ->
        fst (getCampaignPerformance cid w) = Ok None).
Proof.
  split; [|split; [|split]].
  - intros w. apply (Propagating_checkAndSchedulePosts parse w).
  - intros c existing plat w. apply schedulePlatform_fault.
  - intros cid w.
    destruct (getCampaignPerformance_returns cid w) as (result & w' & Hrun).
    exists result. now rewrite Hrun.
  - apply getCampaignPerformance_fault.
Qed.

Lemma scheduler_propagates_aggregator_returns_null_witness :
  fst (schedulePlatform parseISO_toString internships [] facebook
         (worldAt (clockTime 10 30) [] true))
  = Throw (JsError "Failed to create ad post")
  /\ fst (getCampaignPerformance 1 (worldAt (clockTime 10 30) [] true)) = Ok None.
Proof.
  destruct (scheduler_propagates_aggregator_returns_null parseISO_toString)
    as (_ & Hbody & _ & Hperf).
  split.
  - apply Hbody. exists 0%nat. split; [vm_compute; lia | reflexivity].
  - apply Hperf. exists 0%nat. split; [vm_compute; lia | reflexivity].
Defined.

(** C8 fails as stated for the aggregator: the campaign is in the table, the
    read of it fails, and [getCampaignPerformance] returns [null] as a
    normal result instead of throwing. *)
Lemma aggregator_swallows_failed_read :
  let w := worldAt (clockTime 10 30) [] true in
  In internships (campaignRows w)
  /\ c_id internships = 1
  /\ dbFails w (dbOps w) = true
  /\ fst (getCampaignPerformance 1 w) = Ok None
  /\ (forall e, fst (getCampaignPerformance 1 w) <> Throw e).
Proof.
  cbv zeta. split; [left; reflexivity|].
  repeat split. intros e. discriminate.
Qed.

(** ** Post execution *)

Lemma updateAdPost_returns (target : Z) (data : AdPostPatch) (w : World) :
  exists result w', updateAdPost target data w = (Ok result, w').
Proof.
  run. destruct (dbFails w (dbOps w)); eexists; eexists; reflexivity.
Qed.

Lemma updateAdPost_fault (target : Z) (data : AdPostPatch) (w : World) :
  dbFails w (dbOps w) = true ->
  fst (updateAdPost target data w) = Ok None
  /\ adPostRows (snd (updateAdPost target data w)) = adPostRows w.
Proof. intros Hplan. run. rewrite Hplan. split; reflexivity. Qed.

(** With [Math.random()] in [0, 1), a simulated metric lies in
    [base, base + n - 1]: impressions in [200, 1199], clicks in [50, 249],
    leads in [5, 54]. *)
Lemma simulated_range (r : Q) (n base : Z) :
  (0 <= r)%Q -> (r < 1)%Q -> 0 < n ->
  base <= simulated r n base <= base + n - 1.
Proof.
  intros Hlow Hhigh Hn. unfold simulated.
  assert (Hn' : (inject_Z 0 < inject_Z n)%Q) by (rewrite <- Zlt_Qlt; assumption).
  assert (H0 : 0 <= Qfloor (r * inject_Z n)).
  { change 0 with (Qfloor 0). apply Qfloor_resp_le.
    apply Qmult_le_0_compat; [assumption | now apply Qlt_le_weak]. }
  assert (H1 : Qfloor (r * inject_Z n) < n).
  { rewrite Zlt_Qlt. apply Qle_lt_trans with (r * inject_Z n)%Q.
    - apply Qfloor_le.
    - setoid_replace (inject_Z n) with (1 * inject_Z n)%Q at 2 by ring.
      apply Qmult_lt_compat_r; assumption. }
  lia.
Qed.

Lemma runSocialPost_try_returns (post : AdPost) (w : World) :
  exists result w', runSocialPost_try post w = (Ok result, w').
Proof.
  unfold runSocialPost_try. run.
  destruct (dbFails w (dbOps w)); eexists; eexists; reflexivity.
Qed.

Lemma runSocialPost_is_its_try_block (post : AdPost) (w : World) :
  runSocialPost post w = runSocialPost_try post w.
Proof.
  unfold runSocialPost, tryCatch.
  destruct (runSocialPost_try_returns post w) as (result & w' & ->).
  reflexivity.
Qed.

(** C10: [updateAdPost] never throws, and on a failing update statement it
    returns [null]; so [runSocialPost], whose update fails at the store,
    returns [null] from its [try] block, and its [catch] block is never
    entered: [runSocialPost] is its [try] block. *)
Theorem updateAdPost_never_throws :
  (forall target data w,
     exists result, fst (updateAdPost target data w) = Ok result)
  /\ (forall target data w,
        dbFails w (dbOps w) = true ->
        fst (updateAdPost target data w) = Ok None)
  /\ (forall post w,
        dbFails w (dbOps w) = true ->
        fst (runSocialPost post w) = Ok None)
  /\ (forall post w, runSocialPost post w = runSocialPost_try post w).
Proof.
  split; [|split; [|split]].
  - intros target data w.
    destruct (updateAdPost_returns target data w) as (result & w' & ->).
    exists result. reflexivity.
  - intros target data w Hplan. apply (updateAdPost_fault target data w Hplan).
  - intros post w Hplan. rewrite runSocialPost_is_its_try_block.
    unfold runSocialPost_try. run. rewrite Hplan. reflexivity.
  - apply runSocialPost_is_its_try_block.
Qed.

Lemma updateAdPost_never_throws_witness :
  fst (runSocialPost (samplePost 7 "facebook" (clockTime 15 0) "scheduled")
         (worldAt (clockTime 10 30)
                  [samplePost 7 "facebook" (clockTime 15 0) "scheduled"] true))
  = Ok None.
Proof.
  destruct updateAdPost_never_throws as (_ & _ & Hrun & _).
  apply Hrun. reflexivity.
Defined.

(** C3 does not hold of the code: the store holds the scheduled post, its
    update fails, and [runSocialPost] returns [null], not a record in status
    "failed"; the stored post remains in status "scheduled". *)
Theorem failed_update_returns_null :
  let post := samplePost 7 "facebook" (clockTime 15 0) "scheduled" in
  let w := worldAt (clockTime 10 30) [post] true in
  fst (runSocialPost post w) = Ok None
  /\ adPostRows (snd (runSocialPost post w)) = [post]
  /\ status post = "scheduled".
Proof. cbv zeta. repeat split. Qed.

Lemma map_id_patched (target : Z) (data : AdPostPatch) (stamp : Z)
    (rows : list AdPost) :
  map id (map (fun row => if id row =? target
                          then applyPatch data stamp row else row) rows)
  = map id rows.
Proof.
  induction rows as [|r rows IH]; simpl; [reflexivity|].
  rewrite IH. destruct (id r =? target); reflexivity.
Qed.

Lemma nth_error_patched (target : Z) (data : AdPostPatch) (stamp : Z)
    (rows : list AdPost) (i : nat) (row : AdPost) :
  nth_error rows i = Some row -> id row <> target ->
  nth_error (map (fun row => if id row =? target
                             then applyPatch data stamp row else row) rows) i
  = Some row.
Proof.
  intros Hnth Hid.
  rewrite (map_nth_error _ _ _ Hnth).
  destruct (Z.eqb_spec (id row) target); [contradiction | reflexivity].
Qed.

(** The first row returned by the update statement. *)
Lemma updated_row (target : Z) (data : AdPostPatch) (stamp : Z)
    (rows : list AdPost) :
  match hd_error
          (filter (fun row => id row =? target)
                  (map (fun row => if id row =? target
                                   then applyPatch data stamp row else row) rows))
  with
  | Some q => exists r, In r rows /\ id r = target /\ q = applyPatch data stamp r
  | None => ~ In target (map id rows)
  end.
Proof.
  induction rows as [|r rows IH]; simpl; [tauto|].
  destruct (Z.eqb_spec (id r) target) as [Heq|Hne].
  - simpl. rewrite Heq, Z.eqb_refl. simpl.
    exists r. repeat split; [now left | assumption].
  - destruct (Z.eqb_spec (id r) target) as [|_]; [contradiction|].
    destruct (hd_error _) as [q|].
    + destruct IH as (r' & Hin & Hid & Hq). exists r'.
      repeat split; [now right | assumption | assumption].
    + intros [Hhd|Htl]; [contradiction | now apply IH].
Qed.

Lemma runSocialPost_spec (post : AdPost) (w : World) :
  exists result w',
    runSocialPost post w = (Ok result, w')
    /\ dbFails w' = dbFails w
    /\ map id (adPostRows w') = map id (adPostRows w)
    /\ nullOrPosted post result
    /\ (forall i row, nth_error (adPostRows w) i = Some row ->
                      id row <> id post ->
                      nth_error (adPostRows w') i = Some row).
Proof.
  rewrite runSocialPost_is_its_try_block. unfold runSocialPost_try. run.
  destruct (dbFails w (dbOps w)) eqn:Hplan; run.
  - eexists; eexists. split; [reflexivity|]. run.
    repeat split; try (intros; assumption).
    now left.
  - eexists; eexists. split; [reflexivity|]. run.
    split; [reflexivity|]. split; [apply map_id_patched|].
    match goal with
    | |- context [hd_error (filter _ (map (fun row => if _ then applyPatch ?d ?s row else row) _))] =>
        pose proof (updated_row (id post) d s (adPostRows w)) as Hrow
    end.
    destruct (hd_error _) as [q|].
    + destruct Hrow as (r & Hin & Hid & Hq).
      assert (Hposted : exists q0, Some q = Some q0 /\ id q0 = id post
                                   /\ status q0 = "posted").
      { exists q. subst q. repeat split. exact Hid. }
      split; [now right|].
      intros i row Hnth Hne. now apply nth_error_patched.
    + split; [now left|].
      intros i row Hnth Hne. now apply nth_error_patched.
Qed.

Lemma runAllLoop_spec (posts : list AdPost) :
  forall (acc : list (option AdPost)) (w : World),
  exists results w',
    runAllLoop posts acc w = (Ok (acc ++ results), w')
    /\ Forall2 ranAs posts results
    /\ (forall i row,
          nth_error (adPostRows w) i = Some row ->
          (forall p, In p posts -> status p = "scheduled" -> id p <> id row) ->
          nth_error (adPostRows w') i = Some row).
Proof.
  induction posts as [|post rest IH]; intros acc w.
  - exists [], w. cbn [runAllLoop]. rewrite app_nil_r.
    repeat split; try constructor. intros i row Hnth _. exact Hnth.
  - cbn [runAllLoop].
    destruct (String.eqb (status post) "scheduled") eqn:Hstatus.
    + destruct (runSocialPost_spec post w)
        as (r & w1 & Hrun & Hplan & Hids & Hres & Hkeep).
      destruct (IH (acc ++ [r]) w1) as (results & w' & Hloop & Hall & Hkeep').
      exists (r :: results), w'. unfold bind. rewrite Hrun, Hloop, <- app_assoc.
      split; [reflexivity|]. split.
      * constructor; [|assumption]. unfold ranAs. now rewrite Hstatus.
      * intros i row Hnth Hothers. apply Hkeep'.
        -- apply Hkeep; [assumption|]. intros Heq.
           apply (Hothers post); [now left | now apply String.eqb_eq | now symmetry].
        -- intros p Hp. apply Hothers. now right.
    + destruct (IH (acc ++ [Some post]) w)
        as (results & w' & Hloop & Hall & Hkeep').
      exists (Some post :: results), w'. rewrite Hloop, <- app_assoc.
      split; [reflexivity|]. split.
      * constructor; [|assumption]. unfold ranAs. now rewrite Hstatus.
      * intros i row Hnth Hothers. apply Hkeep'; [assumption|].
        intros p Hp. apply Hothers. now right.
Qed.

(** *** The result at each place of a batch *)











(** ** Life cycle of a post *)

Lemma getCampaignPerformance_reads_only (cid : Z) (w : World) :
  adPostRows (snd (getCampaignPerformance cid w)) = adPostRows w.
Proof.
  unfold getCampaignPerformance, getCampaignById, getAllAdPosts. run.
  destruct (dbFails w (dbOps w)); run; [reflexivity|].
  destruct (hd_error _) as [c|]; run; [|reflexivity].
  destruct (negb (cid =? 0)); run;
    (destruct (dbFails w (S (dbOps w))); run; [reflexivity|]);
    (destruct (List.length _ =? 0)%nat; reflexivity).
Qed.

(** C9, as the code has it.  The scheduling pass and every iteration of its
    platform loop only append rows, each in status "scheduled" with zero
    metrics, and leave the rows they found as they were; the aggregator
    changes no row; [runAllSocialPosts] leaves
    every stored row as it was unless a post it was passed is "scheduled"
    and has the id of that row, so a post passed in status "posted" or
    "failed" is not updated; and a record returned by [runSocialPost] is in
    status "posted".  [runSocialPost] itself does not look at the status of
    the post it is given. *)
Theorem posts_change_only_when_run (parse : Z -> option Z) :
  (forall w, exists extra,
     adPostRows (snd (checkAndSchedulePosts parse w)) = adPostRows w ++ extra
     /\ Forall freshlyScheduled extra)
  /\ (forall c existing plat w, exists extra,
        adPostRows (snd (schedulePlatform parse c existing plat w))
        = adPostRows w ++ extra
        /\ Forall freshlyScheduled extra)
  /\ (forall cid w,
        adPostRows (snd (getCampaignPerformance cid w)) = adPostRows w)
  /\ (forall posts w i row,
        nth_error (adPostRows w) i = Some row ->
        (forall p, In p posts -> status p = "scheduled" -> id p <> id row) ->
        nth_error (adPostRows (snd (runAllSocialPosts posts w))) i = Some row)
  /\ (forall post w q,
        fst (runSocialPost post w) = Ok (Some q) ->
        id q = id post /\ status q = "posted").
Proof.
  split; [|split; [|split; [|split]]].
  - apply checkAndSchedulePosts_fresh.
  - intros c existing plat w.
    destruct (schedulePlatform_appends parse c existing plat w)
      as (_ & extra & Hrows & Hgood).
    exists extra. split; [assumption|].
    apply (Forall_impl _ (fun row H => proj1 H) Hgood).
  - apply getCampaignPerformance_reads_only.
  - intros posts w i row Hnth Hothers. unfold runAllSocialPosts.
    destruct (runAllLoop_spec posts [] w) as (results & w' & Hrun & _ & Hkeep).
    rewrite Hrun. apply Hkeep; assumption.
  - intros post w q Hrun.
    destruct (runSocialPost_spec post w) as (r & w' & Hspec & _ & _ & Hres & _).
    rewrite Hspec in Hrun. injection Hrun as ->.
    destruct Hres as [Hnull | (q' & Hq & Hid & Hst)]; [discriminate Hnull|].
    injection Hq as <-. split; assumption.
Qed.

Lemma posts_change_only_when_run_witness :
  nth_error
    (adPostRows
       (snd (runAllSocialPosts
               [measuredPost 8 "twitter" "posted" 100 10 2]
               (worldAt (clockTime 10 30)
                        [measuredPost 8 "twitter" "posted" 100 10 2] false))))
    0
  = Some (measuredPost 8 "twitter" "posted" 100 10 2).
Proof.
  destruct (posts_change_only_when_run parseISO_toString)
    as (_ & _ & _ & Hkeep & _).
  apply Hkeep.
  - reflexivity.
  - intros p [<- | []] Hstatus. discriminate Hstatus.
Defined.

(** C9 fails as stated: the stored post is in status "posted" with metrics
    100, 10 and 2, and a further call of [runSocialPost] on it rewrites its
    metrics. *)
Lemma runSocialPost_rewrites_a_posted_post :
  let post := measuredPost 8 "twitter" "posted" 100 10 2 in
  let w := worldAt (clockTime 10 30) [post] false in
  map (fun r => (status r, impressions r, clicks r, leadsCaptured r))
      (adPostRows w)
  = [("posted", 100, 10, 2)]
  /\ map (fun r => (status r, impressions r, clicks r, leadsCaptured r))
         (adPostRows (snd (runSocialPost post w)))
     = [("posted", 700, 150, 30)].
Proof. cbv zeta. split; reflexivity. Qed.

(* ================================================================== *)
(** * Further properties of the store *)
(* ================================================================== *)

Ltac runStore :=
  cbv [getAdPostById updateAdPostStats deleteAdPost deleteCampaign
       getActiveCampaign getCampaignById dbDeleteAdPosts dbDeleteCampaigns
       setCampaignRows anyRow];
  run.

Lemma hd_error_filter_app_fresh (target : Z) (rows : list AdPost) (row : AdPost) :
  ~ In target (map id rows) -> id row = target ->
  hd_error (filter (fun p => id p =? target) (rows ++ [row])) = Some row.
Proof.
  intros Hfresh Hid. induction rows as [|r rows IH]; simpl.
  - rewrite Hid, Z.eqb_refl. reflexivity.
  - destruct (Z.eqb_spec (id r) target) as [Heq|_].
    + exfalso. apply Hfresh. simpl. now left.
    + apply IH. intros Hin. apply Hfresh. simpl. now right.
Qed.

(** Insert and lookup: when the insert and the following select succeed and
    the next serial number is not yet a stored id, [createAdPost] stores a
    row under that number and [getAdPostById] of it returns that very row. *)
Theorem created_post_is_found (adPost : AdPostInsert) (w : World) :
  dbFails w (dbOps w) = false ->
  dbFails w (S (dbOps w)) = false ->
  ~ In (nextAdPostId w) (map id (adPostRows w)) ->
  exists row w1,
    createAdPost adPost w = (Ok row, w1)
    /\ id row = nextAdPostId w
    /\ campaignId row = i_campaignId adPost
    /\ platform row = i_platform adPost
    /\ postContent row = i_postContent adPost
    /\ postTime row = i_postTime adPost
    /\ nextAdPostId w1 = nextAdPostId w + 1
    /\ fst (getAdPostById (id row) w1) = Ok (Some row).
Proof.
  intros Hfirst Hsecond Hfresh.
  exists (storedRow adPost w). eexists.
  split; [run; rewrite Hfirst; reflexivity|].
  repeat split. runStore. rewrite Hsecond. cbn [fst].
  now rewrite hd_error_filter_app_fresh.
Qed.

Lemma created_post_is_found_witness :
  exists row w1,
    createAdPost (scheduledInsert internships twitter (clockTime 8 59))
                 (worldAt (clockTime 8 59)
                    [samplePost 7 "facebook" (clockTime 15 0) "scheduled"] false)
    = (Ok row, w1)
    /\ id row = 100
    /\ fst (getAdPostById 100 w1) = Ok (Some row).
Proof.
  destruct (created_post_is_found
              (scheduledInsert internships twitter (clockTime 8 59))
              (worldAt (clockTime 8 59)
                 [samplePost 7 "facebook" (clockTime 15 0) "scheduled"] false))
    as (row & w1 & Hrun & Hid & _ & _ & _ & _ & _ & Hfound).
  - reflexivity.
  - reflexivity.
  - simpl. intros [H|[]]. discriminate H.
  - exists row, w1. split; [exact Hrun|]. split; [exact Hid|].
    rewrite <- Hfound. f_equal. f_equal. exact (eq_sym Hid).
Defined.

Lemma updated_row_unique (target : Z) (data : AdPostPatch) (stamp : Z)
    (rows : list AdPost) (q : AdPost) :
  hd_error (filter (fun row => id row =? target)
              (map (fun row => if id row =? target
                               then applyPatch data stamp row else row) rows))
  = Some q ->
  In q (map (fun row => if id row =? target
                        then applyPatch data stamp row else row) rows)
  /\ id q = target.
Proof.
  intros Hhd.
  assert (Hin : In q (filter (fun row => id row =? target)
                        (map (fun row => if id row =? target
                                         then applyPatch data stamp row else row)
                             rows))).
  { destruct (filter _ _) as [|x xs]; [discriminate Hhd|].
    injection Hhd as ->. now left. }
  apply filter_In in Hin. destruct Hin as [Hin Hid].
  split; [assumption | now apply Z.eqb_eq].
Qed.

(** [updateAdPost] of an id that no row has, the statement succeeding:
    the result is [null] and the table is as it was. *)
Theorem updateAdPost_of_missing_id (target : Z) (data : AdPostPatch) (w : World) :
  dbFails w (dbOps w) = false ->
  ~ In target (map id (adPostRows w)) ->
  fst (updateAdPost target data w) = Ok None
  /\ adPostRows (snd (updateAdPost target data w)) = adPostRows w.
Proof.
  intros Hok Habsent. run. rewrite Hok. cbn [fst snd adPostRows].
  assert (Hsame : map (fun row => if id row =? target
                                  then applyPatch data (clockAt w (dateReads w)) row
                                  else row) (adPostRows w) = adPostRows w).
  { induction (adPostRows w) as [|r rows IH]; simpl; [reflexivity|].
    destruct (Z.eqb_spec (id r) target) as [Heq|_].
    - exfalso. apply Habsent. simpl. now left.
    - f_equal. apply IH. intros Hin. apply Habsent. simpl. now right. }
  rewrite Hsame. split; [|reflexivity].
  pose proof (updated_row target data (clockAt w (dateReads w)) (adPostRows w))
    as Hrow.
  rewrite Hsame in Hrow.
  destruct (hd_error _) as [q|]; [|reflexivity].
  destruct Hrow as (r & Hin & Hid & _). exfalso. apply Habsent.
  rewrite <- Hid. now apply in_map.
Qed.

Lemma updateAdPost_of_missing_id_witness :
  fst (updateAdPost 9 (mkAdPostPatch None None None None (Some "posted")
                                     None None None None)
         (worldAt (clockTime 10 30)
            [samplePost 7 "facebook" (clockTime 15 0) "scheduled"] false))
  = Ok None.
Proof.
  apply (updateAdPost_of_missing_id 9).
  - reflexivity.
  - simpl. intros [H|[]]. discriminate H.
Defined.

(** [updateAdPost] of a stored id, the statement succeeding: the result is
    the stored row of that id with the given fields replaced, the other
    fields kept and [updatedAt] set to the clock reading; the table keeps
    its length and its ids, holds the result, and every row of another id
    is as it was. *)
Theorem updateAdPost_of_stored_id (target : Z) (data : AdPostPatch) (w : World) :
  dbFails w (dbOps w) = false ->
  In target (map id (adPostRows w)) ->
  exists old new,
    fst (updateAdPost target data w) = Ok (Some new)
    /\ In old (adPostRows w) /\ id old = target
    /\ new = applyPatch data (clockAt w (dateReads w)) old
    /\ id new = target
    /\ createdAt new = createdAt old
    /\ updatedAt new = clockAt w (dateReads w)
    /\ In new (adPostRows (snd (updateAdPost target data w)))
    /\ map id (adPostRows (snd (updateAdPost target data w)))
       = map id (adPostRows w)
    /\ (forall i row,
          nth_error (adPostRows w) i = Some row -> id row <> target ->
          nth_error (adPostRows (snd (updateAdPost target data w))) i = Some row).
Proof.
  intros Hok Hstored. run. rewrite Hok. cbn [fst snd adPostRows].
  pose proof (updated_row target data (clockAt w (dateReads w)) (adPostRows w))
    as Hrow.
  pose proof (updated_row_unique target data (clockAt w (dateReads w))
                (adPostRows w)) as Hunique.
  destruct (hd_error _) as [q|]; [|contradiction].
  destruct Hrow as (old & Hin & Hid & Hq).
  destruct (Hunique q eq_refl) as [Hinq Hidq].
  exists old, q. subst q.
  repeat split; try assumption.
  - apply map_id_patched.
  - intros i row Hnth Hne. now apply nth_error_patched.
Qed.

Lemma updateAdPost_of_stored_id_witness :
  exists new,
    fst (updateAdPost 7 (mkAdPostPatch None None None None (Some "posted")
                                       None (Some 500) None None)
           (worldAt (clockTime 10 30)
              [samplePost 7 "facebook" (clockTime 15 0) "scheduled"] false))
    = Ok (Some new)
    /\ status new = "posted" /\ impressions new = 500 /\ clicks new = 0
    /\ platform new = "facebook".
Proof.
  destruct (updateAdPost_of_stored_id 7
              (mkAdPostPatch None None None None (Some "posted")
                             None (Some 500) None None)
              (worldAt (clockTime 10 30)
                 [samplePost 7 "facebook" (clockTime 15 0) "scheduled"] false))
    as (old & new & Hrun & Hin & _ & Hnew & _).
  - reflexivity.
  - simpl. now left.
  - exists new. split; [exact Hrun|].
    destruct Hin as [<-|[]]. subst new. repeat split.
Defined.

(** Read your write: when the update and the following select succeed,
    [getAdPostById] returns what [updateAdPost] of that id returned, the
    updated row or [null]. *)
Theorem updated_post_is_read_back (target : Z) (data : AdPostPatch) (w : World) :
  dbFails w (dbOps w) = false ->
  dbFails w (S (dbOps w)) = false ->
  fst (getAdPostById target (snd (updateAdPost target data w)))
  = fst (updateAdPost target data w).
Proof.
  intros Hfirst Hsecond. runStore. rewrite Hfirst. runStore.
  rewrite Hsecond. reflexivity.
Qed.

Lemma updated_post_is_read_back_witness :
  fst (getAdPostById 7
         (snd (updateAdPost 7 (mkAdPostPatch None None None None (Some "posted")
                                             None None None None)
                 (worldAt (clockTime 10 30)
                    [samplePost 7 "facebook" (clockTime 15 0) "scheduled"]
                    false))))
  = fst (updateAdPost 7 (mkAdPostPatch None None None None (Some "posted")
                                       None None None None)
           (worldAt (clockTime 10 30)
              [samplePost 7 "facebook" (clockTime 15 0) "scheduled"] false)).
Proof. apply updated_post_is_read_back; reflexivity. Defined.

Lemma anyRow_filter_id (target : Z) (rows : list AdPost) :
  anyRow (filter (fun p => id p =? target) rows) = true
  <-> In target (map id rows).
Proof.
  unfold anyRow. induction rows as [|r rows IH]; simpl.
  - split; [discriminate | tauto].
  - destruct (Z.eqb_spec (id r) target) as [Heq|Hne]; simpl.
    + split; [now left | reflexivity].
    + rewrite IH. split; [now right | intros [H|H]; [contradiction | exact H]].
Qed.

(** [deleteAdPost], the statement succeeding: it returns [true] exactly when
    a row had the id; afterwards no row has the id, and the rows left are
    the rows of another id. *)
Theorem deleteAdPost_removes_the_row (target : Z) (w : World) :
  dbFails w (dbOps w) = false ->
  exists deleted,
    fst (deleteAdPost target w) = Ok deleted
    /\ (deleted = true <-> In target (map id (adPostRows w)))
    /\ ~ In target (map id (adPostRows (snd (deleteAdPost target w))))
    /\ (forall row,
          In row (adPostRows (snd (deleteAdPost target w)))
          <-> In row (adPostRows w) /\ id row <> target).
Proof.
  intros Hok. runStore. rewrite Hok. cbn [fst snd adPostRows].
  eexists. split; [reflexivity|]. split; [apply anyRow_filter_id|]. split.
  - intros Hin. apply in_map_iff in Hin. destruct Hin as (row & Hid & Hin).
    apply filter_In in Hin. destruct Hin as [_ Hkeep].
    rewrite Hid, Z.eqb_refl in Hkeep. discriminate Hkeep.
  - intros row. rewrite filter_In.
    destruct (Z.eqb_spec (id row) target); simpl; intuition congruence.
Qed.

Lemma deleteAdPost_removes_the_row_witness :
  fst (deleteAdPost 7
         (worldAt (clockTime 10 30)
            [samplePost 7 "facebook" (clockTime 15 0) "scheduled";
             samplePost 8 "twitter" (clockTime 15 0) "scheduled"] false))
  = Ok true.
Proof.
  destruct (deleteAdPost_removes_the_row 7
              (worldAt (clockTime 10 30)
                 [samplePost 7 "facebook" (clockTime 15 0) "scheduled";
                  samplePost 8 "twitter" (clockTime 15 0) "scheduled"] false))
    as (deleted & Hrun & Hiff & _).
  - reflexivity.
  - rewrite Hrun. f_equal. apply Hiff. simpl. now left.
Defined.

(** [deleteAdPost] when the statement fails: it returns [false], the answer
    it also gives for an id that no row has, and the table is as it was. *)
Theorem deleteAdPost_failure_looks_like_missing (target : Z) (w : World) :
  dbFails w (dbOps w) = true ->
  fst (deleteAdPost target w) = Ok false
  /\ adPostRows (snd (deleteAdPost target w)) = adPostRows w.
Proof. intros Hko. runStore. rewrite Hko. split; reflexivity. Qed.

Lemma deleteAdPost_failure_looks_like_missing_witness :
  fst (deleteAdPost 7
         (worldAt (clockTime 10 30)
            [samplePost 7 "facebook" (clockTime 15 0) "scheduled"] true))
  = Ok false.
Proof. apply deleteAdPost_failure_looks_like_missing. reflexivity. Defined.

Lemma anyRow_filter_c_id (cid : Z) (rows : list Campaign) :
  anyRow (filter (fun c => c_id c =? cid) rows) = true
  <-> In cid (map c_id rows).
Proof.
  unfold anyRow. induction rows as [|r rows IH]; simpl.
  - split; [discriminate | tauto].
  - destruct (Z.eqb_spec (c_id r) cid) as [Heq|Hne]; simpl.
    + split; [now left | reflexivity].
    + rewrite IH. split; [now right | intros [H|H]; [contradiction | exact H]].
Qed.

(** [deleteCampaign], both statements succeeding: it returns [true] exactly
    when a campaign had the id; afterwards no campaign has the id, no post
    belongs to it (also when there was no such campaign), and the posts of
    the other campaigns are all still there. *)
Theorem deleteCampaign_removes_campaign_and_posts (cid : Z) (w : World) :
  dbFails w (dbOps w) = false ->
  dbFails w (S (dbOps w)) = false ->
  exists deleted,
    fst (deleteCampaign cid w) = Ok deleted
    /\ (deleted = true <-> In cid (map c_id (campaignRows w)))
    /\ ~ In cid (map c_id (campaignRows (snd (deleteCampaign cid w))))
    /\ ~ In cid (map campaignId (adPostRows (snd (deleteCampaign cid w))))
    /\ (forall row,
          In row (adPostRows (snd (deleteCampaign cid w)))
          <-> In row (adPostRows w) /\ campaignId row <> cid).
Proof.
  intros Hfirst Hsecond. runStore. rewrite Hfirst. runStore.
  rewrite Hsecond. cbn [fst snd adPostRows campaignRows].
  eexists. split; [reflexivity|]. split; [apply anyRow_filter_c_id|].
  split; [|split].
  - intros Hin. apply in_map_iff in Hin. destruct Hin as (row & Hid & Hin).
    apply filter_In in Hin. destruct Hin as [_ Hkeep].
    rewrite Hid, Z.eqb_refl in Hkeep. discriminate Hkeep.
  - intros Hin. apply in_map_iff in Hin. destruct Hin as (row & Hid & Hin).
    apply filter_In in Hin. destruct Hin as [_ Hkeep].
    rewrite Hid, Z.eqb_refl in Hkeep. discriminate Hkeep.
  - intros row. rewrite filter_In.
    destruct (Z.eqb_spec (campaignId row) cid); simpl; intuition congruence.
Qed.

Lemma deleteCampaign_removes_campaign_and_posts_witness :
  fst (deleteCampaign 1
         (worldAt (clockTime 10 30)
            [samplePost 7 "facebook" (clockTime 15 0) "scheduled"] false))
  = Ok true.
Proof.
  destruct (deleteCampaign_removes_campaign_and_posts 1
              (worldAt (clockTime 10 30)
                 [samplePost 7 "facebook" (clockTime 15 0) "scheduled"] false))
    as (deleted & Hrun & Hiff & _).
  - reflexivity.
  - reflexivity.
  - rewrite Hrun. f_equal. apply Hiff. simpl. now left.
Defined.

(** [deleteCampaign] is not atomic: when the delete of the posts succeeds
    and the delete of the campaign then fails, the posts of the campaign
    are gone, the campaign is still there, and the result is [false]. *)
Theorem deleteCampaign_can_lose_only_the_posts (cid : Z) (w : World) :
  dbFails w (dbOps w) = false ->
  dbFails w (S (dbOps w)) = true ->
  fst (deleteCampaign cid w) = Ok false
  /\ campaignRows (snd (deleteCampaign cid w)) = campaignRows w
  /\ ~ In cid (map campaignId (adPostRows (snd (deleteCampaign cid w)))).
Proof.
  intros Hfirst Hsecond. runStore. rewrite Hfirst. runStore.
  rewrite Hsecond. cbn [fst snd adPostRows campaignRows].
  repeat split.
  intros Hin. apply in_map_iff in Hin. destruct Hin as (row & Hid & Hin).
  apply filter_In in Hin. destruct Hin as [_ Hkeep].
  rewrite Hid, Z.eqb_refl in Hkeep. discriminate Hkeep.
Qed.

Lemma deleteCampaign_can_lose_only_the_posts_witness :
  let w := mkWorld [internships]
                   [samplePost 7 "facebook" (clockTime 15 0) "scheduled"]
                   100 (fun _ => clockTime 10 30) 0 (fun _ => 1 # 2) 0
                   (fun n => Nat.eqb n 1) 0 in
  fst (deleteCampaign 1 w) = Ok false
  /\ campaignRows (snd (deleteCampaign 1 w)) = [internships]
  /\ adPostRows (snd (deleteCampaign 1 w)) = [].
Proof.
  cbv zeta.
  destruct (deleteCampaign_can_lose_only_the_posts 1
              (mkWorld [internships]
                 [samplePost 7 "facebook" (clockTime 15 0) "scheduled"]
                 100 (fun _ => clockTime 10 30) 0 (fun _ => 1 # 2) 0
                 (fun n => Nat.eqb n 1) 0))
    as (Hrun & Hcampaigns & _).
  - reflexivity.
  - reflexivity.
  - split; [exact Hrun|]. split; [exact Hcampaigns | reflexivity].
Defined.

(** ** Ordering of the fetched posts *)

Lemma insertByCreatedAt_perm (p : AdPost) (l : list AdPost) :
  Permutation (insertByCreatedAt p l) (p :: l).
Proof.
  induction l as [|q l IH]; simpl; [reflexivity|].
  destruct (createdAt q <=? createdAt p); [reflexivity|].
  rewrite IH. apply perm_swap.
Qed.

Lemma orderByCreatedAtDesc_perm (l : list AdPost) :
  Permutation (orderByCreatedAtDesc l) l.
Proof.
  induction l as [|p l IH]; simpl; [reflexivity|].
  rewrite insertByCreatedAt_perm. now constructor.
Qed.

Lemma insertByCreatedAt_HdRel (q p : AdPost) (l : list AdPost) :
  newerFirst q p -> HdRel newerFirst q l ->
  HdRel newerFirst q (insertByCreatedAt p l).
Proof.
  intros Hqp Hhd. destruct l as [|r l]; simpl; [now constructor|].
  destruct (createdAt r <=? createdAt p); constructor.
  - assumption.
  - now inversion Hhd.
Qed.

Lemma insertByCreatedAt_sorted (p : AdPost) (l : list AdPost) :
  Sorted newerFirst l -> Sorted newerFirst (insertByCreatedAt p l).
Proof.
  induction l as [|q l IH]; intros Hsorted; simpl.
  - repeat constructor.
  - inversion Hsorted as [|? ? Htail Hhd]; subst.
    destruct (Z.leb_spec (createdAt q) (createdAt p)).
    + constructor; [assumption|]. constructor. assumption.
    + constructor; [now apply IH|].
      apply insertByCreatedAt_HdRel; [|assumption].
      unfold newerFirst. lia.
Qed.

Lemma orderByCreatedAtDesc_sorted (l : list AdPost) :
  Sorted newerFirst (orderByCreatedAtDesc l).
Proof.
  induction l as [|p l IH]; simpl; [constructor|].
  now apply insertByCreatedAt_sorted.
Qed.

Lemma getAllAdPosts_reads (cid : option Z) (w : World) :
  dbFails w (dbOps w) = false ->
  exists w1,
    getAllAdPosts cid w
    = (Ok (orderByCreatedAtDesc (filter (selectedBy cid) (adPostRows w))), w1)
    /\ adPostRows w1 = adPostRows w.
Proof.
  intros Hplan. unfold getAllAdPosts, selectedBy.
  destruct cid as [c|]; [destruct (c =? 0)|]; cbn [negb]; run;
    rewrite Hplan; eexists; split; reflexivity.
Qed.

(** [getAllAdPosts]: on a successful read it returns the selected rows (those
    of the campaign for an id other than 0, all rows for the id 0 or no id),
    each as often as it is stored, newest first; on a failing read it
    throws, it does not return the empty list of its [catch] block. *)
Theorem getAllAdPosts_newest_first (cid : option Z) (w : World) :
  (dbFails w (dbOps w) = false ->
   exists posts,
     fst (getAllAdPosts cid w) = Ok posts
     /\ Permutation posts (filter (selectedBy cid) (adPostRows w))
     /\ Sorted newerFirst posts)
  /\ (dbFails w (dbOps w) = true ->
      fst (getAllAdPosts cid w) = Throw DbError).
Proof.
  split; intros Hplan.
  - destruct (getAllAdPosts_reads cid w Hplan) as (w1 & -> & _).
    eexists. split; [reflexivity|].
    split; [apply orderByCreatedAtDesc_perm | apply orderByCreatedAtDesc_sorted].
  - unfold getAllAdPosts.
    destruct cid as [c|]; [destruct (c =? 0)|]; cbn [negb]; run;
      rewrite Hplan; reflexivity.
Qed.

Lemma getAllAdPosts_newest_first_witness :
  fst (getAllAdPosts (Some 1)
         (worldAt (clockTime 10 30)
            [samplePost 7 "facebook" (clockTime 9 0) "scheduled";
             samplePost 8 "twitter" (clockTime 15 0) "scheduled"] false))
  = Ok [samplePost 8 "twitter" (clockTime 15 0) "scheduled";
        samplePost 7 "facebook" (clockTime 9 0) "scheduled"]
  /\ fst (getAllAdPosts (Some 1) (worldAt (clockTime 10 30) [] true))
     = Throw DbError.
Proof.
  split.
  - destruct (proj1 (getAllAdPosts_newest_first (Some 1)
                       (worldAt (clockTime 10 30)
                          [samplePost 7 "facebook" (clockTime 9 0) "scheduled";
                           samplePost 8 "twitter" (clockTime 15 0) "scheduled"]
                          false)) eq_refl) as (posts & Hrun & _).
    rewrite Hrun. vm_compute in Hrun. injection Hrun as <-. reflexivity.
  - apply (proj2 (getAllAdPosts_newest_first (Some 1)
                    (worldAt (clockTime 10 30) [] true))).
    reflexivity.
Defined.

Lemma hd_error_filter_c_id (cid : Z) (rows : list Campaign) :
  hd_error (filter (fun c => c_id c =? cid) rows) = None
  <-> ~ In cid (map c_id rows).
Proof.
  pose proof (anyRow_filter_c_id cid rows) as Hany. unfold anyRow in Hany.
  destruct (hd_error _).
  - split; [discriminate|]. intros Habsent. exfalso. apply Habsent.
    now apply Hany.
  - split; [|reflexivity]. intros _ Hin. apply Hany in Hin. discriminate Hin.
Qed.

(** [getCampaignPerformance] with both reads succeeding: the result is
    [null] exactly when no campaign has the id; otherwise it is a
    performance of a stored campaign of that id, and its number of posts is
    the number of rows that [getAllAdPosts] selects for the id. *)
Theorem performance_is_null_only_for_missing_campaign (cid : Z) (w : World) :
  dbFails w (dbOps w) = false ->
  dbFails w (S (dbOps w)) = false ->
  (fst (getCampaignPerformance cid w) = Ok None
   <-> ~ In cid (map c_id (campaignRows w)))
  /\ (forall perf,
        fst (getCampaignPerformance cid w) = Ok (Some perf) ->
        In (campaign perf) (campaignRows w)
        /\ c_id (campaign perf) = cid
        /\ totalPosts perf
           = Z.of_nat (List.length (filter (selectedBy (Some cid))
                                      (adPostRows w)))).
Proof.
  intros Hfirst Hsecond.
  pose proof (hd_error_filter_c_id cid (campaignRows w)) as Hnone.
  unfold getCampaignPerformance, getCampaignById. run. rewrite Hfirst. run.
  destruct (hd_error (filter _ (campaignRows w))) as [c|] eqn:Hhd.
  - assert (Hc : In c (campaignRows w) /\ c_id c = cid).
    { assert (Hin : In c (filter (fun c => c_id c =? cid) (campaignRows w))).
      { destruct (filter _ _) as [|x xs]; [discriminate Hhd|].
        injection Hhd as ->. now left. }
      apply filter_In in Hin. destruct Hin as [Hin Hid].
      split; [assumption | now apply Z.eqb_eq]. }
    match goal with
    | |- context [getAllAdPosts (Some cid) ?w1] =>
        destruct (getAllAdPosts_reads (Some cid) w1 Hsecond) as (w2 & Hfetch & _)
    end.
    rewrite Hfetch. cbn [fst snd adPostRows].
    set (posts := orderByCreatedAtDesc _).
    assert (Hcount : List.length posts
                     = List.length (filter (selectedBy (Some cid)) (adPostRows w)))
      by (apply Permutation_length, orderByCreatedAtDesc_perm).
    split.
    + split; [|intros Habsent; apply Hnone in Habsent; discriminate Habsent].
      destruct (List.length posts =? 0)%nat; discriminate.
    + intros perf Hperf. destruct Hc as [Hin Hid].
      destruct (List.length posts =? 0)%nat eqn:Hlen;
        cbn [fst] in Hperf; injection Hperf as <-;
        cbn [campaign totalPosts]; (split; [assumption|]);
        (split; [assumption|]).
      * apply Nat.eqb_eq in Hlen. rewrite <- Hcount, Hlen. reflexivity.
      * now rewrite Hcount.
  - cbn [fst]. split.
    + split; [intros _; now apply Hnone | reflexivity].
    + intros perf Hperf. discriminate Hperf.
Qed.

Lemma performance_is_null_only_for_missing_campaign_witness :
  fst (getCampaignPerformance 2 (worldAt (clockTime 10 30) [] false)) = Ok None.
Proof.
  apply (performance_is_null_only_for_missing_campaign 2
           (worldAt (clockTime 10 30) [] false)).
  - reflexivity.
  - reflexivity.
  - simpl. intros [H|[]]. discriminate H.
Defined.

(** ** The primary key of the posts *)

Lemma keepsKeys_refl (w : World) : keepsKeys w w.
Proof. intros H. exact H. Qed.

Lemma keepsKeys_trans (w1 w2 w3 : World) :
  keepsKeys w1 w2 -> keepsKeys w2 w3 -> keepsKeys w1 w3.
Proof. intros H12 H23 H. apply H23, H12, H. Qed.

Lemma keepsKeys_same_ids (w w' : World) :
  map id (adPostRows w') = map id (adPostRows w) ->
  nextAdPostId w' = nextAdPostId w ->
  keepsKeys w w'.
Proof. intros Hids Hnext [Hnodup Hbelow]. split; rewrite Hids; [|rewrite Hnext]; assumption. Qed.

Lemma keepsKeys_fewer_rows (f : AdPost -> bool) (w w' : World) :
  adPostRows w' = filter f (adPostRows w) ->
  nextAdPostId w' = nextAdPostId w ->
  keepsKeys w w'.
Proof.
  intros Hrows Hnext [Hnodup Hbelow]. unfold wellKeyed.
  rewrite Hrows, Hnext. clear Hrows Hnext.
  induction (adPostRows w) as [|r rows IH]; simpl in *; [split; constructor|].
  inversion Hnodup as [|? ? Hfresh Hrest]; subst.
  inversion Hbelow as [|? ? Hr Hrows]; subst.
  destruct (IH Hrest Hrows) as [IHnodup IHbelow].
  destruct (f r); simpl; [|split; assumption].
  split; constructor; try assumption.
  intros Hin. apply Hfresh. apply in_map_iff in Hin.
  destruct Hin as (x & Hid & Hx). apply filter_In in Hx.
  rewrite <- Hid. apply in_map. apply Hx.
Qed.

Lemma keepsKeys_createAdPost (adPost : AdPostInsert) :
  Steps keepsKeys (createAdPost adPost).
Proof.
  intros w. run. destruct (dbFails w (dbOps w)); run;
    [apply keepsKeys_same_ids; reflexivity|].
  intros [Hnodup Hbelow]. unfold wellKeyed. cbn [adPostRows nextAdPostId].
  rewrite map_app. cbn [map storedRow id]. split.
  - apply NoDup_app; [assumption | repeat constructor; simpl; tauto |].
    intros i Hin [<-|[]]. cbn [nextAdPostId] in Hin.
    rewrite Forall_forall in Hbelow. specialize (Hbelow _ Hin). lia.
  - apply Forall_app. split.
    + revert Hbelow. apply Forall_impl. intros i Hi. lia.
    + repeat constructor. cbn [nextAdPostId]. lia.
Qed.

Lemma keepsKeys_updateAdPost (target : Z) (data : AdPostPatch) :
  Steps keepsKeys (updateAdPost target data).
Proof.
  intros w. run. destruct (dbFails w (dbOps w)); run;
    [apply keepsKeys_same_ids; reflexivity|].
  apply keepsKeys_same_ids; [apply map_id_patched | reflexivity].
Qed.

Lemma keepsKeys_runSocialPost (post : AdPost) :
  Steps keepsKeys (runSocialPost post).
Proof.
  intros w. rewrite runSocialPost_is_its_try_block. unfold runSocialPost_try.
  run. destruct (dbFails w (dbOps w)); run.
  - apply keepsKeys_same_ids; reflexivity.
  - apply keepsKeys_same_ids; [apply map_id_patched | reflexivity].
Qed.

Lemma keepsKeys_runAllLoop (posts : list AdPost) :
  forall results, Steps keepsKeys (runAllLoop posts results).
Proof.
  induction posts as [|post rest IH]; intros results; cbn [runAllLoop].
  - apply Steps_ret, keepsKeys_refl.
  - destruct (String.eqb (status post) "scheduled"); [|apply IH].
    apply Steps_bind; [apply keepsKeys_trans | apply keepsKeys_runSocialPost |].
    intros updatedPost. apply IH.
Qed.

Lemma keepsKeys_throw {A} (e : Error) : Steps keepsKeys (@throw A e).
Proof. intros w. apply keepsKeys_refl. Qed.

Lemma keepsKeys_schedulePlatform parse c existing plat :
  Steps keepsKeys (schedulePlatform parse c existing plat).
Proof.
  unfold schedulePlatform.
  apply Steps_bind; [apply keepsKeys_trans | |].
  - intros w. apply keepsKeys_same_ids; reflexivity.
  - intros now. cbv zeta.
    destruct (List.length _ =? 0)%nat;
      [|apply Steps_ret, keepsKeys_refl].
    apply Steps_bind; [apply keepsKeys_trans | |].
    + intros w. apply keepsKeys_same_ids; reflexivity.
    + intros t.
      apply Steps_bind;
        [apply keepsKeys_trans | apply keepsKeys_createAdPost |].
      intros _. apply Steps_ret, keepsKeys_refl.
Qed.

Lemma keepsKeys_checkAndSchedulePosts parse :
  Steps keepsKeys (checkAndSchedulePosts parse).
Proof.
  unfold checkAndSchedulePosts.
  apply Steps_bind; [apply keepsKeys_trans | |].
  - apply keepsKeys_throw.
  - intros activeCampaigns.
    apply Steps_forEachM; [apply keepsKeys_refl | apply keepsKeys_trans |].
    intros c.
    apply Steps_bind; [apply keepsKeys_trans | |].
    + apply keepsKeys_throw.
    + intros existing.
      apply Steps_forEachM; [apply keepsKeys_refl | apply keepsKeys_trans |].
      intros plat. apply keepsKeys_schedulePlatform.
Qed.

(** The primary key is an invariant of the operations on posts: when the
    stored ids are pairwise distinct and below the next serial number, they
    are so again after [createAdPost], [updateAdPost], [updateAdPostStats],
    [deleteAdPost], [deleteCampaign], [runSocialPost], [runAllSocialPosts],
    a pass of [checkAndSchedulePosts] and an iteration of its platform loop,
    whether the operation succeeds, returns [null] or throws. *)
Theorem primary_key_is_kept (w : World) :
  wellKeyed w ->
  (forall adPost, wellKeyed (snd (createAdPost adPost w)))
  /\ (forall target data, wellKeyed (snd (updateAdPost target data w)))
  /\ (forall target i c l, wellKeyed (snd (updateAdPostStats target i c l w)))
  /\ (forall target, wellKeyed (snd (deleteAdPost target w)))
  /\ (forall cid, wellKeyed (snd (deleteCampaign cid w)))
  /\ (forall post, wellKeyed (snd (runSocialPost post w)))
  /\ (forall posts, wellKeyed (snd (runAllSocialPosts posts w)))
  /\ (forall parse, wellKeyed (snd (checkAndSchedulePosts parse w)))
  /\ (forall parse c existing plat,
        wellKeyed (snd (schedulePlatform parse c existing plat w))).
Proof.
  intros Hkeys.
  split; [|split; [|split; [|split; [|split; [|split; [|split; [|split]]]]]]].
  - intros adPost. now apply keepsKeys_createAdPost.
  - intros target data. now apply keepsKeys_updateAdPost.
  - intros target i c l. revert Hkeys. runStore.
    destruct (dbFails w (dbOps w)); run.
    + apply keepsKeys_same_ids; reflexivity.
    + apply keepsKeys_same_ids; [apply map_id_patched | reflexivity].
  - intros target. revert Hkeys. runStore.
    destruct (dbFails w (dbOps w)); run.
    + apply keepsKeys_same_ids; reflexivity.
    + apply (keepsKeys_fewer_rows (fun row => negb (id row =? target)));
        reflexivity.
  - intros cid. revert Hkeys. runStore.
    destruct (dbFails w (dbOps w)); run;
      [apply keepsKeys_same_ids; reflexivity|].
    destruct (dbFails w (S (dbOps w))); run;
      apply (keepsKeys_fewer_rows (fun row => negb (campaignId row =? cid)));
      reflexivity.
  - intros post. now apply keepsKeys_runSocialPost.
  - intros posts. now apply keepsKeys_runAllLoop.
  - intros parse. now apply keepsKeys_checkAndSchedulePosts.
  - intros parse c existing plat. now apply keepsKeys_schedulePlatform.
Qed.

Lemma primary_key_is_kept_witness :
  wellKeyed
    (snd (schedulePlatform parseISO_toString internships
            [samplePost 7 "facebook" (clockTime 15 0) "scheduled"] facebook
            (worldAt (clockTime 10 30)
               [samplePost 7 "facebook" (clockTime 15 0) "scheduled"] false))).
Proof.
  apply (primary_key_is_kept
           (worldAt (clockTime 10 30)
              [samplePost 7 "facebook" (clockTime 15 0) "scheduled"] false)).
  split; simpl.
  - constructor; [tauto | constructor].
  - repeat constructor.
Defined.

(** [updateAdPostStats] of a stored id, the statement succeeding: the result
    is the stored row with the three metrics replaced; status, platform,
    content and post time are those of the stored row. *)
Theorem updateAdPostStats_sets_only_metrics
    (target i c l : Z) (w : World) :
  dbFails w (dbOps w) = false ->
  In target (map id (adPostRows w)) ->
  exists old new,
    fst (updateAdPostStats target i c l w) = Ok (Some new)
    /\ In old (adPostRows w) /\ id old = target
    /\ impressions new = i /\ clicks new = c /\ leadsCaptured new = l
    /\ status new = status old /\ platform new = platform old
    /\ campaignId new = campaignId old
    /\ postContent new = postContent old /\ postTime new = postTime old
    /\ In new (adPostRows (snd (updateAdPostStats target i c l w))).
Proof.
  intros Hok Hstored. runStore. rewrite Hok. cbn [fst snd adPostRows].
  match goal with
  | |- context [hd_error (filter _ (map (fun row => if _ then applyPatch ?d ?s row else row) _))] =>
      pose proof (updated_row target d s (adPostRows w)) as Hrow;
      pose proof (updated_row_unique target d s (adPostRows w)) as Hunique
  end.
  destruct (hd_error _) as [q|]; [|contradiction].
  destruct Hrow as (old & Hin & Hid & Hq).
  destruct (Hunique q eq_refl) as [Hinq _].
  exists old, q. subst q. repeat split; assumption.
Qed.

Lemma updateAdPostStats_sets_only_metrics_witness :
  exists new,
    fst (updateAdPostStats 7 500 60 9
           (worldAt (clockTime 10 30)
              [samplePost 7 "facebook" (clockTime 15 0) "scheduled"] false))
    = Ok (Some new)
    /\ impressions new = 500 /\ status new = "scheduled".
Proof.
  destruct (updateAdPostStats_sets_only_metrics 7 500 60 9
              (worldAt (clockTime 10 30)
                 [samplePost 7 "facebook" (clockTime 15 0) "scheduled"] false))
    as (old & new & Hrun & Hin & _ & Himp & _ & _ & Hstatus & _).
  - reflexivity.
  - simpl. now left.
  - exists new. split; [exact Hrun|]. split; [exact Himp|].
    rewrite Hstatus. destruct Hin as [<-|[]]. reflexivity.
Defined.

(* ================================================================== *)
(** * Further properties of the performance aggregator *)
(* ================================================================== *)

Lemma fold_left_sum (metric : AdPost -> Z) (posts : list AdPost) (start : Z) :
  fold_left (fun sum post => sum + metric post) posts start
  = start + sumOf metric posts.
Proof.
  revert start. induction posts as [|p posts IH]; intros start; simpl.
  - lia.
  - rewrite IH. lia.
Qed.

Lemma sumOf_perm (metric : AdPost -> Z) (l l' : list AdPost) :
  Permutation l l' -> sumOf metric l = sumOf metric l'.
Proof. induction 1; simpl; lia. Qed.

Lemma filter_perm (f : AdPost -> bool) (l l' : list AdPost) :
  Permutation l l' -> Permutation (filter f l) (filter f l').
Proof.
  induction 1; simpl.
  - constructor.
  - destruct (f x); [now constructor | assumption].
  - destruct (f x), (f y); try reflexivity. apply perm_swap.
  - etransitivity; eassumption.
Qed.

Lemma bucket_setBucket_same (key : string) (f : AdPostAnalytics -> AdPostAnalytics)
    (b : Breakdown) :
  bucket key (setBucket key f b) = option_map f (bucket key b).
Proof.
  induction b as [|[k a] b IH]; simpl; [reflexivity|].
  destruct (String.eqb k key) eqn:Hk; simpl; rewrite Hk; [reflexivity | exact IH].
Qed.

Lemma bucket_setBucket_other (key other : string)
    (f : AdPostAnalytics -> AdPostAnalytics) (b : Breakdown) :
  other <> key -> bucket other (setBucket key f b) = bucket other b.
Proof.
  intros Hne. induction b as [|[k a] b IH]; simpl; [reflexivity|].
  destruct (String.eqb_spec k key) as [->|Hk]; simpl.
  - destruct (String.eqb_spec key other) as [Heq|_]; [now elim Hne | reflexivity].
  - destruct (String.eqb k other); [reflexivity | exact IH].
Qed.

Lemma keys_setBucket (key : string) (f : AdPostAnalytics -> AdPostAnalytics)
    (b : Breakdown) :
  map fst (setBucket key f b) = map fst b.
Proof.
  induction b as [|[k a] b IH]; simpl; [reflexivity|].
  destruct (String.eqb k key); simpl; [reflexivity | now rewrite IH].
Qed.

Lemma keys_accumulate (b : Breakdown) (post : AdPost) :
  map fst (accumulate b post) = map fst b.
Proof.
  unfold accumulate. destruct (_ && _); [apply keys_setBucket | reflexivity].
Qed.

Lemma keys_fold_accumulate (posts : list AdPost) (b : Breakdown) :
  map fst (fold_left accumulate posts b) = map fst b.
Proof.
  revert b. induction posts as [|p posts IH]; intros b; simpl; [reflexivity|].
  now rewrite IH, keys_accumulate.
Qed.

Lemma platformName_nonempty (plat : SocialPlatform) :
  String.eqb (platformName plat) EmptyString = false.
Proof. destruct plat; reflexivity. Qed.

Lemma bucket_accumulate (plat : SocialPlatform) (b : Breakdown) (post : AdPost) :
  bucket (platformName plat) (accumulate b post)
  = if onPlatform plat post
    then option_map (addPost post) (bucket (platformName plat) b)
    else bucket (platformName plat) b.
Proof.
  unfold accumulate, onPlatform.
  destruct (String.eqb_spec (platform post) (platformName plat)) as [Heq|Hne].
  - rewrite Heq, platformName_nonempty. cbn [negb andb].
    destruct (bucket (platformName plat) b) as [a|] eqn:Hb.
    + rewrite bucket_setBucket_same, Hb. reflexivity.
    + rewrite Hb. reflexivity.
  - destruct (_ && _); [|reflexivity].
    apply bucket_setBucket_other. congruence.
Qed.

Lemma bucket_fold_accumulate (plat : SocialPlatform) (posts : list AdPost) :
  forall (b : Breakdown) (a : AdPostAnalytics),
    bucket (platformName plat) b = Some a ->
    exists a',
      bucket (platformName plat) (fold_left accumulate posts b) = Some a'
      /\ pa_impressions a'
         = pa_impressions a + sumOf impressions (filter (onPlatform plat) posts)
      /\ pa_clicks a'
         = pa_clicks a + sumOf clicks (filter (onPlatform plat) posts)
      /\ pa_leadsCaptured a'
         = pa_leadsCaptured a
           + sumOf leadsCaptured (filter (onPlatform plat) posts).
Proof.
  induction posts as [|p posts IH]; intros b a Hb; simpl.
  - exists a. rewrite Hb. repeat split; lia.
  - pose proof (bucket_accumulate plat b p) as Hstep. rewrite Hb in Hstep.
    destruct (onPlatform plat p); cbn [option_map] in Hstep.
    + destruct (IH _ _ Hstep) as (a' & Hfound & Hi & Hc & Hl).
      exists a'. split; [assumption|]. simpl in *. repeat split; lia.
    + destruct (IH _ _ Hstep) as (a' & Hfound & Hi & Hc & Hl).
      exists a'. repeat split; assumption.
Qed.

Lemma bucket_with_rates (key : string) (b : Breakdown) :
  bucket key (map (fun entry => (fst entry, withRates (snd entry))) b)
  = option_map withRates (bucket key b).
Proof.
  induction b as [|[k a] b IH]; simpl; [reflexivity|].
  destruct (String.eqb k key); [reflexivity | exact IH].
Qed.

(** What a returned performance holds, in terms of the posts fetched. *)
Lemma performance_of_posts (cid : Z) (w : World) (perf : CampaignPerformance) :
  dbFails w (dbOps w) = false ->
  dbFails w (S (dbOps w)) = false ->
  fst (getCampaignPerformance cid w) = Ok (Some perf) ->
  exists posts,
    Permutation posts (filter (selectedBy (Some cid)) (adPostRows w))
    /\ totalPosts perf = Z.of_nat (List.length posts)
    /\ totalImpressions perf = sumOf impressions posts
    /\ totalClicks perf = sumOf clicks posts
    /\ totalLeads perf = sumOf leadsCaptured posts
    /\ platformBreakdown perf
       = map (fun entry => (fst entry, withRates (snd entry)))
             (fold_left accumulate posts zeroBreakdown).
Proof.
  intros Hfirst Hsecond.
  unfold getCampaignPerformance, getCampaignById. run. rewrite Hfirst. run.
  destruct (hd_error (filter _ (campaignRows w))) as [c|]; [|discriminate].
  match goal with
  | |- context [getAllAdPosts (Some cid) ?w1] =>
      destruct (getAllAdPosts_reads (Some cid) w1 Hsecond) as (w2 & Hfetch & _)
  end.
  rewrite Hfetch. cbn [fst snd adPostRows].
  set (posts := orderByCreatedAtDesc _).
  intros Hperf. exists posts.
  split; [apply orderByCreatedAtDesc_perm|].
  destruct posts as [|p posts'] eqn:Hposts;
    cbn [List.length Nat.eqb fst] in Hperf; injection Hperf as <-.
  - repeat split.
  - cbn [totalPosts totalImpressions totalClicks totalLeads platformBreakdown].
    rewrite !fold_left_sum. repeat split.
Qed.

Lemma performance_buckets (cid : Z) (w : World) (perf : CampaignPerformance)
    (plat : SocialPlatform) :
  dbFails w (dbOps w) = false ->
  dbFails w (S (dbOps w)) = false ->
  fst (getCampaignPerformance cid w) = Ok (Some perf) ->
  exists a,
    bucket (platformName plat) (platformBreakdown perf) = Some a
    /\ pa_impressions a
       = sumOf impressions
           (filter (onPlatform plat)
                   (filter (selectedBy (Some cid)) (adPostRows w)))
    /\ pa_clicks a
       = sumOf clicks
           (filter (onPlatform plat)
                   (filter (selectedBy (Some cid)) (adPostRows w)))
    /\ pa_leadsCaptured a
       = sumOf leadsCaptured
           (filter (onPlatform plat)
                   (filter (selectedBy (Some cid)) (adPostRows w))).
Proof.
  intros Hfirst Hsecond Hperf.
  destruct (performance_of_posts cid w perf Hfirst Hsecond Hperf)
    as (posts & Hperm & _ & _ & _ & _ & Hbreakdown).
  assert (Hzero : bucket (platformName plat) zeroBreakdown = Some zeroAnalytics)
    by (destruct plat; reflexivity).
  destruct (bucket_fold_accumulate plat posts zeroBreakdown zeroAnalytics Hzero)
    as (a & Hfound & Hi & Hc & Hl).
  exists (withRates a).
  rewrite Hbreakdown, bucket_with_rates, Hfound.
  split; [reflexivity|]. cbn [withRates pa_impressions pa_clicks pa_leadsCaptured].
  cbn [zeroAnalytics pa_impressions pa_clicks pa_leadsCaptured] in Hi, Hc, Hl.
  rewrite Hi, Hc, Hl.
  pose proof (filter_perm (onPlatform plat) _ _ Hperm) as Hperm'.
  rewrite (sumOf_perm impressions _ _ Hperm'), (sumOf_perm clicks _ _ Hperm'),
    (sumOf_perm leadsCaptured _ _ Hperm').
  repeat split; lia.
Qed.

(** Aggregation: with both reads succeeding, a returned performance counts
    the rows selected for the id; its three totals are the sums of the
    metrics over these rows, whatever their status; its breakdown has
    exactly the five platform keys; and the entry of each platform holds the
    sums over the selected rows of that platform. *)
Theorem performance_sums_the_posts
    (cid : Z) (w : World) (perf : CampaignPerformance) :
  dbFails w (dbOps w) = false ->
  dbFails w (S (dbOps w)) = false ->
  fst (getCampaignPerformance cid w) = Ok (Some perf) ->
  totalPosts perf
  = Z.of_nat (List.length (filter (selectedBy (Some cid)) (adPostRows w)))
  /\ totalImpressions perf
     = sumOf impressions (filter (selectedBy (Some cid)) (adPostRows w))
  /\ totalClicks perf
     = sumOf clicks (filter (selectedBy (Some cid)) (adPostRows w))
  /\ totalLeads perf
     = sumOf leadsCaptured (filter (selectedBy (Some cid)) (adPostRows w))
  /\ map fst (platformBreakdown perf) = platformKeys
  /\ forall plat, exists a,
       bucket (platformName plat) (platformBreakdown perf) = Some a
       /\ pa_impressions a
          = sumOf impressions
              (filter (onPlatform plat)
                      (filter (selectedBy (Some cid)) (adPostRows w)))
       /\ pa_clicks a
          = sumOf clicks
              (filter (onPlatform plat)
                      (filter (selectedBy (Some cid)) (adPostRows w)))
       /\ pa_leadsCaptured a
          = sumOf leadsCaptured
              (filter (onPlatform plat)
                      (filter (selectedBy (Some cid)) (adPostRows w))).
Proof.
  intros Hfirst Hsecond Hperf.
  destruct (performance_of_posts cid w perf Hfirst Hsecond Hperf)
    as (posts & Hperm & Hcount & Hi & Hc & Hl & Hbreakdown).
  rewrite Hcount, Hi, Hc, Hl, (Permutation_length Hperm),
    (sumOf_perm impressions _ _ Hperm), (sumOf_perm clicks _ _ Hperm),
    (sumOf_perm leadsCaptured _ _ Hperm).
  repeat (split; [reflexivity|]). split.
  - rewrite Hbreakdown, map_map. cbn [fst].
    rewrite keys_fold_accumulate. reflexivity.
  - intros plat. now apply performance_buckets.
Qed.

Lemma performance_sums_the_posts_witness :
  exists perf,
    fst (getCampaignPerformance 1
           (worldAt (clockTime 10 30)
              [measuredPost 7 "facebook" "posted" 100 10 2;
               measuredPost 8 "twitter" "scheduled" 0 0 0;
               measuredPost 9 "facebook" "posted" 50 5 1] false))
    = Ok (Some perf)
    /\ totalImpressions perf = 150
    /\ map fst (platformBreakdown perf) = platformKeys.
Proof.
  eexists. split; [reflexivity|].
  destruct (performance_sums_the_posts 1
              (worldAt (clockTime 10 30)
                 [measuredPost 7 "facebook" "posted" 100 10 2;
                  measuredPost 8 "twitter" "scheduled" 0 0 0;
                  measuredPost 9 "facebook" "posted" 50 5 1] false)
              _ eq_refl eq_refl eq_refl) as (_ & Hi & _ & _ & Hkeys & _).
  split; [exact Hi | exact Hkeys].
Defined.

Lemma sumOf_cons (metric : AdPost -> Z) (p : AdPost) (posts : list AdPost) :
  sumOf metric (p :: posts) = metric p + sumOf metric posts.
Proof. reflexivity. Qed.

(** A post is on exactly one of the five platforms, or on none. *)
Lemma platform_cases (p : AdPost) :
  let flags := (onPlatform facebook p, onPlatform instagram p,
                onPlatform twitter p, onPlatform whatsapp p,
                onPlatform telegram p, onNoPlatform p) in
  flags = (true, false, false, false, false, false)
  \/ flags = (false, true, false, false, false, false)
  \/ flags = (false, false, true, false, false, false)
  \/ flags = (false, false, false, true, false, false)
  \/ flags = (false, false, false, false, true, false)
  \/ flags = (false, false, false, false, false, true).
Proof.
  unfold onNoPlatform, onPlatform. cbn [existsb platforms platformName].
  destruct (String.eqb_spec (platform p) "facebook") as [Hf|Hf];
    [rewrite Hf; cbn; tauto|].
  destruct (String.eqb_spec (platform p) "instagram") as [Hi|Hi];
    [rewrite Hi; cbn; tauto|].
  destruct (String.eqb_spec (platform p) "twitter") as [Ht|Ht];
    [rewrite Ht; cbn; tauto|].
  destruct (String.eqb_spec (platform p) "whatsapp") as [Hw|Hw];
    [rewrite Hw; cbn; tauto|].
  destruct (String.eqb_spec (platform p) "telegram") as [Hg|Hg];
    cbn; tauto.
Qed.

Lemma sumOf_by_platform (metric : AdPost -> Z) (posts : list AdPost) :
  sumOf metric posts
  = sumOf metric (filter (onPlatform facebook) posts)
    + sumOf metric (filter (onPlatform instagram) posts)
    + sumOf metric (filter (onPlatform twitter) posts)
    + sumOf metric (filter (onPlatform whatsapp) posts)
    + sumOf metric (filter (onPlatform telegram) posts)
    + sumOf metric (filter onNoPlatform posts).
Proof.
  induction posts as [|p posts IH]; [reflexivity|].
  cbn [filter].
  destruct (platform_cases p) as [H|[H|[H|[H|[H|H]]]]];
    injection H as -> -> -> -> -> ->;
    rewrite !sumOf_cons; lia.
Qed.

(** Totals against breakdown: each total is the sum of the five platform
    entries plus the metric of the selected rows whose platform is none of
    the five; such rows count in the totals and in no entry.  When every
    selected row has one of the five platforms, the entries add up to the
    totals. *)
Theorem totals_are_breakdown_plus_unknown
    (cid : Z) (w : World) (perf : CampaignPerformance)
    (fb ig tw wa tg : AdPostAnalytics) :
  dbFails w (dbOps w) = false ->
  dbFails w (S (dbOps w)) = false ->
  fst (getCampaignPerformance cid w) = Ok (Some perf) ->
  bucket "facebook" (platformBreakdown perf) = Some fb ->
  bucket "instagram" (platformBreakdown perf) = Some ig ->
  bucket "twitter" (platformBreakdown perf) = Some tw ->
  bucket "whatsapp" (platformBreakdown perf) = Some wa ->
  bucket "telegram" (platformBreakdown perf) = Some tg ->
  totalImpressions perf
  = pa_impressions fb + pa_impressions ig + pa_impressions tw
    + pa_impressions wa + pa_impressions tg
    + sumOf impressions
        (filter onNoPlatform (filter (selectedBy (Some cid)) (adPostRows w)))
  /\ totalClicks perf
     = pa_clicks fb + pa_clicks ig + pa_clicks tw + pa_clicks wa + pa_clicks tg
       + sumOf clicks
           (filter onNoPlatform (filter (selectedBy (Some cid)) (adPostRows w)))
  /\ totalLeads perf
     = pa_leadsCaptured fb + pa_leadsCaptured ig + pa_leadsCaptured tw
       + pa_leadsCaptured wa + pa_leadsCaptured tg
       + sumOf leadsCaptured
           (filter onNoPlatform (filter (selectedBy (Some cid)) (adPostRows w)))
  /\ (filter onNoPlatform (filter (selectedBy (Some cid)) (adPostRows w)) = [] ->
      totalImpressions perf
      = pa_impressions fb + pa_impressions ig + pa_impressions tw
        + pa_impressions wa + pa_impressions tg).
Proof.
  intros Hfirst Hsecond Hperf Hfb Hig Htw Hwa Htg.
  destruct (performance_of_posts cid w perf Hfirst Hsecond Hperf)
    as (posts & Hperm & _ & Hi & Hc & Hl & _).
  rewrite Hi, Hc, Hl, (sumOf_perm impressions _ _ Hperm),
    (sumOf_perm clicks _ _ Hperm), (sumOf_perm leadsCaptured _ _ Hperm).
  destruct (performance_buckets cid w perf facebook Hfirst Hsecond Hperf)
    as (a1 & H1 & Hi1 & Hc1 & Hl1).
  destruct (performance_buckets cid w perf instagram Hfirst Hsecond Hperf)
    as (a2 & H2 & Hi2 & Hc2 & Hl2).
  destruct (performance_buckets cid w perf twitter Hfirst Hsecond Hperf)
    as (a3 & H3 & Hi3 & Hc3 & Hl3).
  destruct (performance_buckets cid w perf whatsapp Hfirst Hsecond Hperf)
    as (a4 & H4 & Hi4 & Hc4 & Hl4).
  destruct (performance_buckets cid w perf telegram Hfirst Hsecond Hperf)
    as (a5 & H5 & Hi5 & Hc5 & Hl5).
  cbn [platformName] in H1, H2, H3, H4, H5.
  assert (a1 = fb) by congruence. assert (a2 = ig) by congruence.
  assert (a3 = tw) by congruence. assert (a4 = wa) by congruence.
  assert (a5 = tg) by congruence. subst a1 a2 a3 a4 a5.
  rewrite Hi1, Hi2, Hi3, Hi4, Hi5, Hc1, Hc2, Hc3, Hc4, Hc5,
    Hl1, Hl2, Hl3, Hl4, Hl5.
  split; [apply sumOf_by_platform|]. split; [apply sumOf_by_platform|].
  split; [apply sumOf_by_platform|].
  intros Hnone.
  rewrite (sumOf_by_platform impressions), Hnone. cbn [sumOf fold_right]. lia.
Qed.

Lemma totals_are_breakdown_plus_unknown_witness :
  exists perf fb,
    fst (getCampaignPerformance 1
           (worldAt (clockTime 10 30)
              [measuredPost 7 "facebook" "posted" 100 10 2;
               measuredPost 8 "linkedin" "posted" 40 4 1] false))
    = Ok (Some perf)
    /\ bucket "facebook" (platformBreakdown perf) = Some fb
    /\ totalImpressions perf = 140
    /\ pa_impressions fb = 100.
Proof.
  eexists. eexists. split; [reflexivity|]. split; [reflexivity|].
  destruct (totals_are_breakdown_plus_unknown 1
              (worldAt (clockTime 10 30)
                 [measuredPost 7 "facebook" "posted" 100 10 2;
                  measuredPost 8 "linkedin" "posted" 40 4 1] false)
              _ _ _ _ _ _ eq_refl eq_refl eq_refl eq_refl eq_refl eq_refl
              eq_refl eq_refl) as (Hi & _).
  split; [exact Hi | reflexivity].
Defined.

(* ================================================================== *)
(** * Further properties of the content generator and the scheduler *)
(* ================================================================== *)

Lemma length_append (a b : string) :
  String.length (a ++ b)%string = (String.length a + String.length b)%nat.
Proof. induction a as [|ch a IH]; simpl; [reflexivity | now rewrite IH]. Qed.

Lemma generatePostContent_splits (c : Campaign) (plat : SocialPlatform) :
  generatePostContent c plat
  = (generatePostContent (withoutFormUrl c) plat ++ callToAction c)%string.
Proof.
  unfold generatePostContent at 1. rewrite generatePostContent_callToAction.
  unfold generatePostContent, withoutFormUrl. cbn [formUrl truthy messageTemplate name].
  reflexivity.
Qed.

(** The call to action comes last on every platform: with a non-empty form
    URL the content is the content of the same campaign without URL,
    followed by a blank line and "Apply now: " with the URL; with no form
    URL, or with an empty one, nothing is appended. *)
Theorem call_to_action_comes_last (c : Campaign) (plat : SocialPlatform) :
  (forall url,
     formUrl c = Some url -> url <> EmptyString ->
     generatePostContent c plat
     = (generatePostContent (withoutFormUrl c) plat
        ++ nl ++ nl ++ "Apply now: " ++ url)%string)
  /\ (formUrl c = None \/ formUrl c = Some EmptyString ->
      generatePostContent c plat = generatePostContent (withoutFormUrl c) plat).
Proof.
  rewrite generatePostContent_splits. unfold callToAction. split.
  - intros url -> Hurl.
    destruct (String.eqb_spec url EmptyString); [contradiction | reflexivity].
  - intros [-> | ->]; cbn; apply append_nil_r.
Qed.

Lemma call_to_action_comes_last_witness :
  generatePostContent internships whatsapp
  = (generatePostContent (withoutFormUrl internships) whatsapp
     ++ nl ++ nl ++ "Apply now: " ++ "https://example.org/form/1")%string.
Proof.
  apply (proj1 (call_to_action_comes_last internships whatsapp)).
  - reflexivity.
  - discriminate.
Defined.

(** Length of the twitter content: the template counts for at most 240
    characters, and the hashtag suffix adds 14 more, so without a form URL
    the content has at most 254 characters, and exactly 254 for every
    template longer than 240; the call to action comes on top. *)
Theorem twitter_content_length (c : Campaign) :
  String.length (generatePostContent c twitter)
  = (Nat.min (String.length (messageTemplate c)) 240 + 14
     + String.length (callToAction c))%nat.
Proof.
  rewrite generatePostContent_splits, length_append. f_equal.
  unfold generatePostContent, withoutFormUrl.
  cbn [formUrl truthy messageTemplate].
  destruct (Nat.ltb_spec 240 (String.length (messageTemplate c))).
  - rewrite !length_append, length_substring_0 by lia.
    cbn [String.length nl]. lia.
  - rewrite !length_append. cbn [String.length nl]. lia.
Qed.

(** ** The time chosen for a post *)

Lemma choosePostTime_in_window (t : Z) :
  t < choosePostTime t <= t + 15 * msPerHour
  /\ 9 <= getHours (choosePostTime t) <= 18.
Proof.
  destruct (choosePostTime_onTheHour t) as (Hearly & Hlate & Hday).
  unfold choosePostTime in *.
  destruct (Z.ltb_spec (getHours t) 9) as [H9|H9].
  - destruct (Hearly H9) as (_ & Hh & _). rewrite Hh. split; [|lia].
    revert H9. unfold setHours, getHours, msPerDay, msPerHour.
    intros H9. Z.div_mod_to_equations. lia.
  - destruct (Z.geb_spec (getHours t) 18) as [H18|H18].
    + destruct (Hlate H18) as (_ & Hh & _). rewrite Hh. split; [|lia].
      revert H18. unfold setHours, addHours, getHours, msPerDay, msPerHour.
      intros H18. Z.div_mod_to_equations. lia.
    + destruct (Hday (conj H9 H18)) as (_ & Hh & _). rewrite Hh. split; [|lia].
      revert H9 H18. unfold setHours, getHours, msPerDay, msPerHour.
      intros H9 H18. Z.div_mod_to_equations. lia.
Qed.

(** The time chosen for a new post lies strictly after the clock reading it
    is computed from and at most 15 hours later, so strictly inside the
    24-hour window of that reading; it is a full hour from 09:00 to 18:00. *)
Theorem chosen_time_is_ahead_and_in_business_hours (t : Z) :
  t < choosePostTime t
  /\ choosePostTime t <= addHours t 15
  /\ choosePostTime t < addHours t 24
  /\ 9 <= getHours (choosePostTime t) <= 18
  /\ getMinutes (choosePostTime t) = 0
  /\ getSeconds (choosePostTime t) = 0
  /\ getMilliseconds (choosePostTime t) = 0.
Proof.
  destruct (choosePostTime_in_window t) as [[Hlow Hhigh] Hhours].
  split; [assumption|]. split; [exact Hhigh|].
  split; [unfold addHours, msPerHour in *; lia|]. split; [assumption|].
  destruct (choosePostTime_onTheHour t) as (Hearly & Hlate & Hday).
  destruct (Z.lt_ge_cases (getHours t) 9) as [H9|H9].
  - destruct (Hearly H9) as (_ & _ & Hm & Hs & Hms). repeat split; assumption.
  - destruct (Z.lt_ge_cases (getHours t) 18) as [H18|H18].
    + destruct (Hday (conj H9 H18)) as (_ & _ & Hm & Hs & Hms).
      repeat split; assumption.
    + destruct (Hlate H18) as (_ & _ & Hm & Hs & Hms). repeat split; assumption.
Qed.

(** ** The pass and its platform loop *)




(* ================================================================== *)
(** * Further properties of the post execution *)
(* ================================================================== *)

(** [runSocialPost] of a post whose id is stored, the update succeeding and
    the three random values lying in [0, 1): the result is the stored row
    of that id, not the record passed, in status "posted", with impressions
    in [200, 1199], clicks in [50, 249] and leads in [5, 54]; campaign,
    platform, content and post time are those of the stored row, and the
    result is in the table afterwards. *)
Theorem runSocialPost_posts_the_stored_row (post : AdPost) (w : World) :
  dbFails w (dbOps w) = false ->
  In (id post) (map id (adPostRows w)) ->
  unitInterval (randomAt w (randomReads w)) ->
  unitInterval (randomAt w (S (randomReads w))) ->
  unitInterval (randomAt w (S (S (randomReads w)))) ->
  exists old new,
    fst (runSocialPost post w) = Ok (Some new)
    /\ In old (adPostRows w) /\ id old = id post
    /\ id new = id post
    /\ status new = "posted"
    /\ 200 <= impressions new <= 1199
    /\ 50 <= clicks new <= 249
    /\ 5 <= leadsCaptured new <= 54
    /\ campaignId new = campaignId old /\ platform new = platform old
    /\ postContent new = postContent old /\ postTime new = postTime old
    /\ updatedAt new = clockAt w (dateReads w)
    /\ In new (adPostRows (snd (runSocialPost post w))).
Proof.
  intros Hok Hstored [H1 H1'] [H2 H2'] [H3 H3'].
  rewrite runSocialPost_is_its_try_block. unfold runSocialPost_try. run.
  rewrite Hok. cbn [fst snd adPostRows].
  match goal with
  | |- context [hd_error (filter _ (map (fun row => if _ then applyPatch ?d ?s row else row) _))] =>
      pose proof (updated_row (id post) d s (adPostRows w)) as Hrow;
      pose proof (updated_row_unique (id post) d s (adPostRows w)) as Hunique
  end.
  destruct (hd_error _) as [q|]; [|contradiction].
  destruct Hrow as (old & Hin & Hid & Hq).
  destruct (Hunique q eq_refl) as [Hinq _].
  exists old, q. subst q.
  pose proof (simulated_range _ 1000 200 H1 H1' eq_refl).
  pose proof (simulated_range _ 200 50 H2 H2' eq_refl).
  pose proof (simulated_range _ 50 5 H3 H3' eq_refl).
  cbn [applyPatch id status impressions clicks leadsCaptured campaignId platform
       postContent postTime updatedAt orElse u_status u_impressions u_clicks
       u_leadsCaptured u_campaignId u_platform u_postContent u_postTime].
  repeat split; try assumption; lia.
Qed.

Lemma runSocialPost_posts_the_stored_row_witness :
  exists new,
    fst (runSocialPost (samplePost 7 "twitter" (clockTime 9 0) "scheduled")
           (worldAt (clockTime 10 30)
              [samplePost 7 "facebook" (clockTime 15 0) "scheduled"] false))
    = Ok (Some new)
    /\ platform new = "facebook" /\ status new = "posted".
Proof.
  destruct (runSocialPost_posts_the_stored_row
              (samplePost 7 "twitter" (clockTime 9 0) "scheduled")
              (worldAt (clockTime 10 30)
                 [samplePost 7 "facebook" (clockTime 15 0) "scheduled"] false))
    as (old & new & Hrun & Hin & _ & _ & Hstatus & _ & _ & _ & _ & Hplatform & _).
  - reflexivity.
  - simpl. now left.
  - split; [discriminate | reflexivity].
  - split; [discriminate | reflexivity].
  - split; [discriminate | reflexivity].
  - exists new. split; [exact Hrun|]. split; [|exact Hstatus].
    rewrite Hplatform. destruct Hin as [<-|[]]. reflexivity.
Defined.

Lemma runSocialPost_cost (post : AdPost) (w : World) :
  dbOps (snd (runSocialPost post w)) = S (dbOps w)
  /\ randomReads (snd (runSocialPost post w)) = S (S (S (randomReads w)))
  /\ dateReads (snd (runSocialPost post w)) = S (dateReads w).
Proof.
  rewrite runSocialPost_is_its_try_block. unfold runSocialPost_try. run.
  destruct (dbFails w (dbOps w)); repeat split.
Qed.

Lemma runAllLoop_cost (posts : list AdPost) :
  forall results w,
    dbOps (snd (runAllLoop posts results w))
    = (dbOps w + scheduledCount posts)%nat
    /\ randomReads (snd (runAllLoop posts results w))
       = (randomReads w + 3 * scheduledCount posts)%nat
    /\ dateReads (snd (runAllLoop posts results w))
       = (dateReads w + scheduledCount posts)%nat.
Proof.
  unfold scheduledCount.
  induction posts as [|post rest IH]; intros results w; cbn [runAllLoop filter].
  - cbn. repeat split; lia.
  - destruct (String.eqb (status post) "scheduled").
    + destruct (runSocialPost_spec post w) as (r & w1 & Hrun & _).
      destruct (runSocialPost_cost post w) as (Hdb & Hrandom & Hdate).
      rewrite (bind_Ok _ _ _ _ _ Hrun). rewrite Hrun in Hdb, Hrandom, Hdate.
      cbn [snd] in Hdb, Hrandom, Hdate.
      destruct (IH (results ++ [r]) w1) as (IHdb & IHrandom & IHdate).
      rewrite IHdb, IHrandom, IHdate, Hdb, Hrandom, Hdate.
      cbn [List.length]. repeat split; lia.
    + apply IH.
Qed.

(** The cost of a batch: [runAllSocialPosts] issues one database statement,
    takes one clock reading and draws three random numbers for every post
    passed in status "scheduled", and none for the other posts. *)
Theorem runAllSocialPosts_cost (posts : list AdPost) (w : World) :
  dbOps (snd (runAllSocialPosts posts w))
  = (dbOps w + scheduledCount posts)%nat
  /\ randomReads (snd (runAllSocialPosts posts w))
     = (randomReads w + 3 * scheduledCount posts)%nat
  /\ dateReads (snd (runAllSocialPosts posts w))
     = (dateReads w + scheduledCount posts)%nat.
Proof. apply runAllLoop_cost. Qed.

Lemma runAllLoop_idle (posts : list AdPost) :
  Forall (fun p => String.eqb (status p) "scheduled" = false) posts ->
  forall results w,
    runAllLoop posts results w = (Ok (results ++ map Some posts), w).
Proof.
  induction 1 as [|post rest Hpost Hrest IH]; intros results w; cbn [runAllLoop map].
  - now rewrite app_nil_r.
  - rewrite Hpost, IH, <- app_assoc. reflexivity.
Qed.

Lemma withoutNulls_settled (posts : list AdPost) (results : list (option AdPost)) :
  Forall2 ranAs posts results ->
  Forall (fun p => String.eqb (status p) "scheduled" = false)
         (withoutNulls results).
Proof.
  induction 1 as [|post result posts results Hran Hrest IH]; cbn [withoutNulls].
  - constructor.
  - unfold ranAs in Hran.
    destruct (String.eqb (status post) "scheduled") eqn:Hstatus.
    + destruct Hran as [-> | (q & -> & _ & Hposted)]; [exact IH|].
      constructor; [|exact IH]. now rewrite Hposted.
    + subst result. constructor; assumption.
Qed.

(** Running a batch on its own results does nothing: the records that
    [runAllSocialPosts] returned are none of them "scheduled", so passing
    them (without the [null] entries) to [runAllSocialPosts] again returns
    them as they are and leaves the store, the clock and the random source
    untouched. *)
Theorem rerunning_the_results_does_nothing (posts : list AdPost) (w : World) :
  exists results w1,
    runAllSocialPosts posts w = (Ok results, w1)
    /\ runAllSocialPosts (withoutNulls results) w1
       = (Ok (map Some (withoutNulls results)), w1).
Proof.
  unfold runAllSocialPosts.
  destruct (runAllLoop_spec posts [] w) as (results & w1 & Hrun & Hran & _).
  exists results, w1. split; [exact Hrun|].
  apply (runAllLoop_idle _ (withoutNulls_settled posts results Hran) [] w1).
Qed.

(* ================================================================== *)
(** * Properties of the lead scoring *)
(* ================================================================== *)

Lemma getStateTierScore_range (state : option string) :
  0 <= getStateTierScore state <= 20
  /\ (truthy state = false -> getStateTierScore state = 0)
  /\ (truthy state = true -> 5 <= getStateTierScore state).
Proof.
  unfold getStateTierScore. destruct (truthy state) eqn:Htruthy; cbn [negb].
  - destruct state as [s|]; [|discriminate Htruthy].
    destruct (existsb _ tier1States); [repeat split; (lia || discriminate)|].
    destruct (existsb _ tier2States); repeat split; (lia || discriminate).
  - repeat split; (lia || discriminate).
Qed.

Lemma getEducationScore_range (education : option string) :
  0 <= getEducationScore education <= 20
  /\ (truthy education = false -> getEducationScore education = 0)
  /\ (truthy education = true -> 2 <= getEducationScore education).
Proof.
  unfold getEducationScore. destruct (truthy education) eqn:Htruthy; cbn [negb].
  - destruct education as [s|]; [|discriminate Htruthy].
    repeat match goal with
           | |- context [if ?b then _ else _] => destruct b
           end; repeat split; (lia || discriminate).
  - repeat split; (lia || discriminate).
Qed.

Lemma ageBand_range (years : Z) : 2 <= ageBand years <= 20.
Proof.
  unfold ageBand.
  repeat match goal with
         | |- context [if ?b then _ else _] => destruct b
         end; lia.
Qed.

Lemma getAgeScore_range (age : option string) :
  0 <= getAgeScore age <= 20
  /\ (truthy age = false -> getAgeScore age = 0).
Proof.
  unfold getAgeScore. destruct (truthy age) eqn:Htruthy; cbn [negb].
  - destruct age as [s|]; [|discriminate Htruthy].
    destruct (parseIntOfDigits (digitsOf s)) as [n|];
      [|repeat split; (lia || discriminate)].
    pose proof (ageBand_range n) as Hband. unfold ageBand in Hband.
    split; [lia | discriminate].
  - repeat split; (lia || discriminate).
Qed.

Lemma getSourceScore_range (source : option string) :
  0 <= getSourceScore source <= 20
  /\ (truthy source = false -> getSourceScore source = 0)
  /\ (truthy source = true -> 5 <= getSourceScore source).
Proof.
  unfold getSourceScore. destruct (truthy source) eqn:Htruthy; cbn [negb].
  - destruct source as [s|]; [|discriminate Htruthy].
    repeat match goal with
           | |- context [if ?b then _ else _] => destruct b
           end; repeat split; (lia || discriminate).
  - repeat split; (lia || discriminate).
Qed.

Lemma getRecencyScore_runs (createdAt : option Z) (w : World) :
  exists r w',
    getRecencyScore createdAt w = (Ok r, w')
    /\ 0 <= r <= 20
    /\ (createdAt = None -> r = 0)
    /\ (createdAt <> None -> 2 <= r)
    /\ campaignRows w' = campaignRows w /\ adPostRows w' = adPostRows w
    /\ dbOps w' = dbOps w.
Proof.
  unfold getRecencyScore. destruct createdAt as [leadDate|].
  - run.
    repeat match goal with
           | |- context [if ?b then _ else _] => destruct b
           end;
      eexists; eexists; (split; [reflexivity|]);
      repeat split; (lia || discriminate).
  - exists 0, w. repeat split; (lia || congruence).
Qed.

Lemma scoreLead_runs (lead : Lead) (w : World) :
  exists r w',
    getRecencyScore (l_createdAt lead) w = (Ok r, w')
    /\ scoreLead lead w
       = (Ok (mkLeadScore
                (getStateTierScore (l_state lead) + r
                 + getEducationScore (l_education lead)
                 + getAgeScore (l_age lead) + getSourceScore (l_source lead))
                [("location", getStateTierScore (l_state lead));
                 ("recency", r);
                 ("education", getEducationScore (l_education lead));
                 ("age", getAgeScore (l_age lead));
                 ("source", getSourceScore (l_source lead))]
                (if getStateTierScore (l_state lead) + r
                    + getEducationScore (l_education lead)
                    + getAgeScore (l_age lead) + getSourceScore (l_source lead)
                    >=? 70 then "Hot"
                 else if getStateTierScore (l_state lead) + r
                         + getEducationScore (l_education lead)
                         + getAgeScore (l_age lead)
                         + getSourceScore (l_source lead) >=? 50 then "Warm"
                 else "Cold")), w').
Proof.
  destruct (getRecencyScore_runs (l_createdAt lead) w) as (r & w' & Hrun & _).
  exists r, w'. split; [exact Hrun|].
  unfold scoreLead. rewrite (bind_Ok _ _ _ _ _ Hrun). reflexivity.
Qed.

Lemma labelled_by_thresholds (total : Z) :
  labelled total (if total >=? 70 then "Hot"
                  else if total >=? 50 then "Warm" else "Cold").
Proof.
  unfold labelled.
  destruct (Z.geb_spec total 70); [left; split; [reflexivity | lia]|].
  destruct (Z.geb_spec total 50); right; [left | right];
    (split; [reflexivity | lia]).
Qed.

(** [scoreLead] always returns: a total from 0 to 100 that is the sum of
    the five entries of the breakdown (location, recency, education, age,
    source, each from 0 to 20), with the label "Hot" from 70, "Warm" from 50
    and "Cold" below; it issues no database statement and changes no
    table. *)
Theorem scoreLead_total_and_label (lead : Lead) (w : World) :
  exists r w',
    scoreLead lead w = (Ok r, w')
    /\ 0 <= score r <= 100
    /\ map fst (breakdown r)
       = ["location"; "recency"; "education"; "age"; "source"]
    /\ Forall (fun v => 0 <= v <= 20) (map snd (breakdown r))
    /\ score r = fold_right Z.add 0 (map snd (breakdown r))
    /\ labelled (score r) (label r)
    /\ dbOps w' = dbOps w /\ adPostRows w' = adPostRows w
    /\ campaignRows w' = campaignRows w.
Proof.
  destruct (scoreLead_runs lead w) as (rec & w' & Hrec & Hrun).
  destruct (getRecencyScore_runs (l_createdAt lead) w)
    as (rec' & w'' & Hrec' & Hrange & _ & _ & Hcampaigns & Hrows & Hops).
  rewrite Hrec in Hrec'. injection Hrec' as <- <-.
  eexists; eexists. split; [exact Hrun|].
  cbn [score breakdown label map fst snd fold_right].
  destruct (getStateTierScore_range (l_state lead)) as (Hs & _).
  destruct (getEducationScore_range (l_education lead)) as (He & _).
  destruct (getAgeScore_range (l_age lead)) as (Ha & _).
  destruct (getSourceScore_range (l_source lead)) as (Ho & _).
  split; [lia|]. split; [reflexivity|].
  split; [repeat constructor; lia|]. split; [lia|].
  split; [apply labelled_by_thresholds|]. repeat split; assumption.
Qed.

(** A lead that lacks two of the five scored fields is never "Hot", one
    that lacks three is always "Cold", and one that lacks all five scores
    0; a lead that lacks none scores at least 14. *)
Theorem missing_fields_cap_the_label (lead : Lead) (w : World) :
  exists r,
    fst (scoreLead lead w) = Ok r
    /\ score r <= 100 - 20 * Z.of_nat (missingFields lead)
    /\ ((2 <= missingFields lead)%nat -> label r <> "Hot")
    /\ ((3 <= missingFields lead)%nat -> label r = "Cold")
    /\ (missingFields lead = 5%nat -> score r = 0)
    /\ (missingFields lead = 0%nat -> 14 <= score r).
Proof.
  destruct (scoreLead_runs lead w) as (rec & w' & Hrec & Hrun).
  destruct (getRecencyScore_runs (l_createdAt lead) w)
    as (rec' & w'' & Hrec' & Hrange & Hnone & Hsome & _).
  rewrite Hrec in Hrec'. injection Hrec' as <- <-.
  eexists. rewrite Hrun. split; [reflexivity|].
  cbn [score label].
  destruct (getStateTierScore_range (l_state lead)) as (Hs & Hs0 & Hs1).
  destruct (getEducationScore_range (l_education lead)) as (He & He0 & He1).
  destruct (getAgeScore_range (l_age lead)) as (Ha & Ha0).
  destruct (getSourceScore_range (l_source lead)) as (Ho & Ho0 & Ho1).
  set (total := getStateTierScore (l_state lead) + rec
                + getEducationScore (l_education lead)
                + getAgeScore (l_age lead) + getSourceScore (l_source lead)).
  assert (Hcap : total <= 100 - 20 * Z.of_nat (missingFields lead)
                 /\ (missingFields lead = 5%nat -> total = 0)
                 /\ (missingFields lead = 0%nat -> 14 <= total)).
  { unfold missingFields, total.
    destruct (truthy (l_state lead));
      [specialize (Hs1 eq_refl) | specialize (Hs0 eq_refl)];
    (destruct (l_createdAt lead) as [created|];
      [assert (2 <= rec) by (apply Hsome; discriminate)
      | specialize (Hnone eq_refl)]);
    (destruct (truthy (l_education lead));
      [specialize (He1 eq_refl) | specialize (He0 eq_refl)]);
    (destruct (truthy (l_age lead)); [|specialize (Ha0 eq_refl)]);
    (destruct (truthy (l_source lead));
      [specialize (Ho1 eq_refl) | specialize (Ho0 eq_refl)]);
    cbn [Nat.add Z.of_nat]; repeat split; intros; lia. }
  destruct Hcap as (Hcap & Hzero & Hfull).
  pose proof (labelled_by_thresholds total) as Hlabel. unfold labelled in Hlabel.
  split; [exact Hcap|].
  split; [intros Htwo | split; [intros Hthree | split; [exact Hzero|]]].
  - destruct Hlabel as [[_ H70]|[[-> _]|[-> _]]]; [lia | discriminate | discriminate].
  - destruct Hlabel as [[_ H70]|[[_ H50]|[Hcold _]]]; [lia | lia | exact Hcold].
  - exact Hfull.
Qed.

Lemma missing_fields_cap_the_label_witness :
  exists r,
    fst (scoreLead (mkLead None (Some (clockTime 9 0)) (Some "MBA") None
                           (Some "website"))
           (worldAt (clockTime 10 30) [] false)) = Ok r
    /\ label r <> "Hot".
Proof.
  destruct (missing_fields_cap_the_label
              (mkLead None (Some (clockTime 9 0)) (Some "MBA") None
                      (Some "website"))
              (worldAt (clockTime 10 30) [] false))
    as (r & Hrun & _ & Hnothot & _).
  exists r. split; [exact Hrun|]. apply Hnothot. vm_compute. lia.
Defined.

Example scoreLead_of_sample :
  fst (scoreLead sampleLead (worldAt (clockTime 10 30) [] false))
  = Ok (mkLeadScore 95
          [("location", 20); ("recency", 20); ("education", 15); ("age", 20);
           ("source", 20)] "Hot").
Proof. vm_compute. reflexivity. Qed.

(** ** Age *)

Lemma digitsOf_idempotent (s : string) : digitsOf (digitsOf s) = digitsOf s.
Proof.
  induction s as [|ch s IH]; simpl; [reflexivity|].
  destruct (isDigit ch) eqn:Hch; simpl; [|exact IH].
  now rewrite Hch, IH.
Qed.

Lemma getAgeScore_of_digits (s : string) :
  getAgeScore (Some s)
  = match parseIntOfDigits (digitsOf s) with
    | None => 0
    | Some years => ageBand years
    end.
Proof.
  unfold getAgeScore, ageBand, truthy.
  destruct (String.eqb_spec s EmptyString) as [->|Hne]; cbn [negb]; reflexivity.
Qed.

(** The age score reads only the digits of the age string: two strings with
    the same digits in the same order score the same, so "18-21" scores as
    1821 does; a string without any digit scores 0, as an absent age does;
    otherwise the score is the band of the number that the digits spell. *)
Theorem age_score_reads_only_digits (s1 s2 : string) :
  (digitsOf s1 = digitsOf s2 -> getAgeScore (Some s1) = getAgeScore (Some s2))
  /\ getAgeScore (Some s1) = getAgeScore (Some (digitsOf s1))
  /\ (digitsOf s1 = EmptyString -> getAgeScore (Some s1) = 0)
  /\ (digitsOf s1 <> EmptyString ->
      getAgeScore (Some s1) = ageBand (decimalValue (digitsOf s1) 0)).
Proof.
  rewrite !getAgeScore_of_digits, digitsOf_idempotent.
  split; [intros ->; reflexivity|]. split; [reflexivity|].
  unfold parseIntOfDigits. split.
  - intros ->. reflexivity.
  - intros Hne. destruct (digitsOf s1); [contradiction | reflexivity].
Qed.

Lemma age_score_reads_only_digits_witness :
  getAgeScore (Some "24 years") = 20 /\ getAgeScore (Some "18-21") = 2.
Proof.
  split.
  - rewrite (proj2 (proj2 (proj2
               (age_score_reads_only_digits "24 years" EmptyString)))).
    + reflexivity.
    + discriminate.
  - rewrite (proj1 (age_score_reads_only_digits "18-21" "1821") eq_refl).
    reflexivity.
Defined.

(** ** Recency *)

(** The recency score at one clock reading: a lead created later never
    scores less than one created earlier; a lead created less than two days
    before the reading, or after it, scores the full 20; one created 31 days
    or more before it scores 2. *)
Theorem recency_score_favours_recent_leads (created1 created2 : Z) (w : World) :
  exists r1 r2,
    fst (getRecencyScore (Some created1) w) = Ok r1
    /\ fst (getRecencyScore (Some created2) w) = Ok r2
    /\ (created1 <= created2 -> r1 <= r2)
    /\ (clockAt w (dateReads w) - 2 * msPerDay < created1 -> r1 = 20)
    /\ (created1 <= clockAt w (dateReads w) - 31 * msPerDay -> r1 = 2).
Proof.
  unfold getRecencyScore. run.
  set (now := clockAt w (dateReads w)).
  change (1000 * 60 * 60 * 24) with 86400000.
  assert (Hmono : created1 <= created2 ->
                  (now - created2) / 86400000 <= (now - created1) / 86400000)
    by (intros Hle; apply Z.div_le_mono; lia).
  assert (Hrecent : now - 2 * msPerDay < created1 ->
                    (now - created1) / 86400000 <= 1)
    by (unfold msPerDay; intros Hlt; Z.div_mod_to_equations; lia).
  assert (Hold : created1 <= now - 31 * msPerDay ->
                 31 <= (now - created1) / 86400000)
    by (unfold msPerDay; intros Hle; Z.div_mod_to_equations; lia).
  destruct (Z.leb_spec ((now - created1) / 86400000) 1);
    destruct (Z.leb_spec ((now - created1) / 86400000) 3);
    destruct (Z.leb_spec ((now - created1) / 86400000) 7);
    destruct (Z.leb_spec ((now - created1) / 86400000) 30);
    destruct (Z.leb_spec ((now - created2) / 86400000) 1);
    destruct (Z.leb_spec ((now - created2) / 86400000) 3);
    destruct (Z.leb_spec ((now - created2) / 86400000) 7);
    destruct (Z.leb_spec ((now - created2) / 86400000) 30);
    eexists; eexists; (split; [reflexivity|]); (split; [reflexivity|]);
    repeat split; intros; lia.
Qed.

Lemma recency_score_favours_recent_leads_witness :
  exists r1 r2,
    fst (getRecencyScore (Some (clockTime 9 0 - 40 * msPerDay))
           (worldAt (clockTime 10 30) [] false)) = Ok r1
    /\ fst (getRecencyScore (Some (clockTime 9 0))
              (worldAt (clockTime 10 30) [] false)) = Ok r2
    /\ r1 <= r2 /\ r1 = 2.
Proof.
  destruct (recency_score_favours_recent_leads
              (clockTime 9 0 - 40 * msPerDay) (clockTime 9 0)
              (worldAt (clockTime 10 30) [] false))
    as (r1 & r2 & H1 & H2 & Hmono & _ & Hold).
  exists r1, r2. split; [exact H1|]. split; [exact H2|]. split.
  - apply Hmono. vm_compute. discriminate.
  - apply Hold. vm_compute. discriminate.
Defined.

(** ** Education *)

(** The education levels are tested from the highest down, on the trimmed,
    lower-cased text: a text that contains "post graduate" scores 20
    although it contains "graduate"; one that contains "graduate" scores at
    least 15; one that contains "senior secondary" or "higher secondary"
    scores at least 10 although it contains "secondary"; one that contains
    "secondary" scores at least 5; any non-empty text scores at least 2. *)
Theorem education_score_takes_the_highest_level (education : string) :
  let text := toLowerCase (trim education) in
  education <> EmptyString ->
  (includes text "post graduate" = true ->
   getEducationScore (Some education) = 20)
  /\ (includes text "graduate" = true ->
      15 <= getEducationScore (Some education))
  /\ (includes text "senior secondary" = true
      \/ includes text "higher secondary" = true ->
      10 <= getEducationScore (Some education))
  /\ (includes text "secondary" = true ->
      5 <= getEducationScore (Some education))
  /\ 2 <= getEducationScore (Some education) <= 20.
Proof.
  cbv zeta. intros Hne. unfold getEducationScore, truthy.
  destruct (String.eqb_spec education EmptyString) as [|_]; [contradiction|].
  cbn [negb].
  set (text := toLowerCase (trim education)).
  set (level20 := includes text "post graduate" || _ || _ || _).
  set (level15 := includes text "graduate" || _ || _ || _).
  set (level10 := includes text "12th" || _ || _).
  set (level5 := includes text "10th" || _).
  assert (H20 : includes text "post graduate" = true -> level20 = true)
    by (unfold level20; intros ->; reflexivity).
  assert (H15 : includes text "graduate" = true -> level15 = true)
    by (unfold level15; intros ->; reflexivity).
  assert (H10 : includes text "senior secondary" = true
                \/ includes text "higher secondary" = true -> level10 = true)
    by (unfold level10; intros [-> | ->];
        rewrite ?orb_true_r; reflexivity).
  assert (H5 : includes text "secondary" = true -> level5 = true)
    by (unfold level5; intros ->; apply orb_true_r).
  clearbody level20 level15 level10 level5.
  split; [intros H; rewrite (H20 H); reflexivity|].
  split; [intros H; rewrite (H15 H); destruct level20; lia|].
  split; [intros H; rewrite (H10 H); destruct level20, level15; lia|].
  split; [intros H; rewrite (H5 H); destruct level20, level15, level10; lia|].
  destruct level20, level15, level10, level5; lia.
Qed.

Lemma education_score_takes_the_highest_level_witness :
  getEducationScore (Some " Post Graduate (M.Sc) ") = 20.
Proof.
  apply (education_score_takes_the_highest_level " Post Graduate (M.Sc) ").
  - discriminate.
  - vm_compute. reflexivity.
Defined.

(** ** Batches *)

Lemma batchScoreLeads_runs (leads : list Lead) :
  forall w,
    exists scored w',
      batchScoreLeads leads w = (Ok scored, w')
      /\ map sl_lead scored = leads
      /\ Forall (fun s => 0 <= sl_score s <= 100
                          /\ labelled (sl_score s) (sl_scoreLabel s)) scored
      /\ adPostRows w' = adPostRows w /\ campaignRows w' = campaignRows w
      /\ dbOps w' = dbOps w.
Proof.
  unfold batchScoreLeads.
  induction leads as [|lead leads IH]; intros w; cbn [mapM].
  - exists [], w. repeat split; constructor.
  - destruct (scoreLead_runs lead w) as (rec & w1 & Hrec & Hrun).
    destruct (getRecencyScore_runs (l_createdAt lead) w)
      as (rec' & w1' & Hrec' & Hrange & _ & _ & Hcampaigns & Hrows & Hops).
    rewrite Hrec in Hrec'. injection Hrec' as <- <-.
    destruct (IH w1) as (scored & w' & Hrest & Hleads & Hall & Hrows' & Hcampaigns' & Hops').
    eexists; exists w'. split.
    + rewrite (bind_Ok _ _ _ _ _ (eq_trans (bind_Ok _ _ _ _ _ Hrun) eq_refl)).
      rewrite (bind_Ok _ _ _ _ _ Hrest). reflexivity.
    + cbn [map sl_lead score label]. split; [now rewrite Hleads|].
      split; [|repeat split; congruence].
      constructor; [|assumption]. cbn [sl_score sl_scoreLabel].
      destruct (getStateTierScore_range (l_state lead)) as (Hs & _).
      destruct (getEducationScore_range (l_education lead)) as (He & _).
      destruct (getAgeScore_range (l_age lead)) as (Ha & _).
      destruct (getSourceScore_range (l_source lead)) as (Ho & _).
      split; [lia | apply labelled_by_thresholds].
Qed.

(** [batchScoreLeads] returns, for any leads, the same leads in the same
    order, each with a score from 0 to 100 and the label that goes with the
    score; it issues no database statement and changes no table. *)
Theorem batchScoreLeads_keeps_the_leads (leads : list Lead) (w : World) :
  exists scored w',
    batchScoreLeads leads w = (Ok scored, w')
    /\ List.length scored = List.length leads
    /\ map sl_lead scored = leads
    /\ Forall (fun s => 0 <= sl_score s <= 100
                        /\ labelled (sl_score s) (sl_scoreLabel s)) scored
    /\ adPostRows w' = adPostRows w /\ campaignRows w' = campaignRows w
    /\ dbOps w' = dbOps w.
Proof.
  destruct (batchScoreLeads_runs leads w)
    as (scored & w' & Hrun & Hleads & Hall & Hrest).
  exists scored, w'. split; [exact Hrun|]. split.
  - rewrite <- Hleads, length_map. reflexivity.
  - split; [exact Hleads|]. split; [exact Hall | exact Hrest].
Qed.
